(** * synthea/ContextManager.py: reply-chain traversal and history compilation

    A shallow embedding of [ReplyChainIterator] and [ContextManager].

    Python values are modelled as follows.
    - [str] is [string], one character per code point up to 255; [len] is
      [String.length] read as an integer, [//] is floor division on [Z].
    - [None]-able values are [option]s; Python truthiness of a string or of
      an optional string is written out ([truthy], [truthy_opt]).
    - A raised exception is a [Raise e] result; the attachment reader also
      threads the working directory (file name to bytes), because it writes
      and removes a file there.
    - The collaborators that live outside this file (the command parser, the
      chat platform's fetch-by-id, the text codec, the PDF library, the
      template engine, the configuration and the reserved system tag) are
      Section variables. *)

From Stdlib Require Import ZArith String Ascii List Bool Lia.
From stdpp Require Import base option gmap strings list.

Open Scope Z_scope.
Open Scope string_scope.

(** ** Strings *)

Module Str.

Definition nl : string := String (ascii_of_nat 10) EmptyString.

(** [len(s)] *)
Definition len (s : string) : Z := Z.of_nat (String.length s).

(** The characters that [str.lower()] changes below code point 256: the
    letters A to Z, and the capital letters from U+00C0 to U+00DE, the
    multiplication sign U+00D7 left out; each moves up by 32. *)
Definition lower_char (c : ascii) : ascii :=
  let n := nat_of_ascii c in
  if ((Nat.leb 65 n && Nat.leb n 90)
      || (Nat.leb 192 n && Nat.leb n 214)
      || (Nat.leb 216 n && Nat.leb n 222))%bool
  then ascii_of_nat (n + 32) else c.

(** [s.lower()] *)
Fixpoint lower (s : string) : string :=
  match s with
  | EmptyString => EmptyString
  | String c r => String (lower_char c) (lower r)
  end.

(** [s.startswith(p)] *)
Definition startswith (s p : string) : bool := String.prefix p s.

Definition space_char (c : ascii) : bool :=
  let n := nat_of_ascii c in
  ((Nat.leb 9 n && Nat.leb n 13) || (Nat.leb 28 n && Nat.leb n 32)
   || Nat.eqb n 133 || Nat.eqb n 160)%bool.

Fixpoint all_space (s : string) : bool :=
  match s with
  | EmptyString => true
  | String c r => (space_char c && all_space r)%bool
  end.

(** [s.isspace()]: at least one character, and all of them white space. *)
Definition isspace (s : string) : bool :=
  match s with
  | EmptyString => false
  | String _ _ => all_space s
  end.

(** [sub in s] *)
Fixpoint contains (sub s : string) : bool :=
  (String.prefix sub s
   || match s with
      | EmptyString => false
      | String _ r => contains sub r
      end)%bool.

(** Truthiness of a [str]: only the empty string is falsy. *)
Definition truthy (s : string) : bool :=
  match s with
  | EmptyString => false
  | String _ _ => true
  end.

(** Truthiness of an [Optional[str]]: [None] and the empty string. *)
Definition truthy_opt (o : option string) : bool :=
  match o with
  | None => false
  | Some s => truthy s
  end.

Fixpoint lstrip (s : string) : string :=
  match s with
  | EmptyString => EmptyString
  | String c r => if space_char c then lstrip r else s
  end.

Definition reverse (s : string) : string :=
  string_of_list_ascii (rev (list_ascii_of_string s)).

(** [s.strip()] *)
Definition strip (s : string) : string :=
  reverse (lstrip (reverse (lstrip s))).

(** [''.join(l)] *)
Definition join (l : list string) : string := fold_right String.append "" l.

End Str.

(** ** Exceptions and results *)

Inductive exn : Type :=
| TypeError
| CommandError
| ParserExitedException
| NotFound
| Forbidden
| HTTPException
| UnicodeDecodeError
| PdfReadError
| FileNotFoundError
| OSError
| TemplateError.

Inductive result (A : Type) : Type :=
| Return (a : A)
| Raise (e : exn)
| OutOfFuel.

Arguments Return {A} a.
Arguments Raise {A} e.
Arguments OutOfFuel {A}.

(** ** The chat platform's data *)

Definition bytes : Type := list Byte.byte.

Record User : Type := {
  user_id : Z;
  display_name : string
}.

(** An embed: its description, [None] when it has none, and
    [embed.footer.text], [None] without a footer. *)
Record Embed : Type := {
  description : option string;
  footer_text : option string
}.

(** An attachment carries, besides its label and name, what the platform
    answers when its payload is requested: [read] for
    [await attachment.read()], [save] for [await attachment.save(name)]
    ([None] when the file was written). *)
Record Attachment : Type := {
  content_type : option string;
  filename : string;
  read : exn + bytes;
  save : option exn
}.

Record MessageReference : Type := {
  message_id : Z
}.

Record Message : Type := {
  id : Z;
  channel : Z;
  author : User;
  clean_content : string;
  embeds : list Embed;
  attachments : list Attachment;
  reference : option MessageReference
}.

Record ParsedArgs : Type := {
  prompt : string;
  use_as_system_prompt : bool
}.

Record Config : Type := {
  context_length : Z;
  max_new_tokens : Z;
  command_start_str : string
}.

(** One entry of the compiled history, [{"role": ..., "content": ...}]. *)
Record CompiledMessage : Type := {
  role : string;
  content : string
}.

(** The working directory: the files the attachment reader has written. *)
Abbreviation FS := (gmap string bytes).

(** ** Computations that may raise and that touch the working directory *)

Definition M (A : Type) : Type := FS -> result A * FS.

Definition ret {A} (a : A) : M A := fun fs => (Return a, fs).

Definition raise {A} (e : exn) : M A := fun fs => (Raise e, fs).

Definition bind {A B} (c : M A) (k : A -> M B) : M B :=
  fun fs =>
    match c fs with
    | (Return a, fs') => k a fs'
    | (Raise e, fs') => (Raise e, fs')
    | (OutOfFuel, fs') => (OutOfFuel, fs')
    end.

(** An outcome of a collaborator, raised when it is a failure. *)
Definition lift {A} (r : exn + A) : M A :=
  match r with
  | inl e => raise e
  | inr a => ret a
  end.

Definition out_of_fuel {A} : M A := fun fs => (OutOfFuel, fs).

(** [await attachment.save(name)] once the platform has delivered [b]. *)
Definition write_file (name : string) (b : bytes) : M unit :=
  fun fs => (Return tt, <[name := b]> fs).

(** Opening [name] for reading. *)
Definition read_file (name : string) : M bytes :=
  fun fs =>
    match fs !! name with
    | Some b => (Return b, fs)
    | None => (Raise FileNotFoundError, fs)
    end.

(** [os.remove(name)] *)
Definition os_remove (name : string) : M unit :=
  fun fs =>
    match fs !! name with
    | Some _ => (Return tt, delete name fs)
    | None => (Raise FileNotFoundError, fs)
    end.

Declare Scope py_scope.
Delimit Scope py_scope with py.
Notation "'let*' x ':=' c 'in' k" := (bind c (fun x => k))
  (at level 10, x pattern, c at level 100, k at level 200) : py_scope.
Open Scope py_scope.

(** ** ReplyChainIterator *)

Module ReplyChainIterator.

Record t : Type := {
  message : Message;
  message_index : nat
}.

(** [ReplyChainIterator(starting_message)] *)
Definition init (starting_message : Message) : t :=
  {| message := starting_message; message_index := 0 |}.

Inductive step : Type :=
| Yield (m : Message)
| StopAsyncIteration
| Propagate (e : exn).

(** The [except (discord.NotFound, discord.HTTPException, discord.Forbidden)]
    clause. *)
Definition caught (e : exn) : bool :=
  match e with
  | NotFound | HTTPException | Forbidden => true
  | _ => false
  end.

Section Anext.

Variable fetch_message : Z -> Z -> exn + Message.

Definition __anext__ (self : t) : step * t :=
  if Nat.eqb (message_index self) 0 then
    (Yield (message self),
     {| message := message self; message_index := message_index self + 1 |})
  else
    match reference (message self) with
    | Some r =>
        let self1 :=
          {| message := message self;
             message_index := message_index self + 1 |} in
        match fetch_message (channel (message self)) (message_id r) with
        | inr m =>
            (Yield m,
             {| message := m; message_index := message_index self1 |})
        | inl e =>
            if caught e then (StopAsyncIteration, self1)
            else (Propagate e, self1)
        end
    | None => (StopAsyncIteration, self)
    end.

(** What [async for] draws from the iterator: the messages yielded until
    the first [StopAsyncIteration]. *)
Fixpoint drain (fuel : nat) (self : t) : result (list Message) :=
  match fuel with
  | O => OutOfFuel
  | S fuel' =>
      match __anext__ self with
      | (Yield m, self') =>
          match drain fuel' self' with
          | Return l => Return (m :: l)
          | Raise e => Raise e
          | OutOfFuel => OutOfFuel
          end
      | (StopAsyncIteration, _) => Return []
      | (Propagate e, _) => Raise e
      end
  end.

(** The messages behind [m] in its reply chain: each one is fetched
    through the reply reference of the one before, and the chain stops
    at a message without a reference or at a fetch that fails because the
    message is not found, is forbidden, or the request fails. *)
Inductive reply_chain : Message -> list Message -> Prop :=
| chain_no_reference m :
    reference m = None -> reply_chain m []
| chain_fetch_failed m r e :
    reference m = Some r ->
    fetch_message (channel m) (message_id r) = inl e ->
    e = NotFound \/ e = Forbidden \/ e = HTTPException ->
    reply_chain m []
| chain_fetched m r m' l :
    reference m = Some r ->
    fetch_message (channel m) (message_id r) = inr m' ->
    reply_chain m' l ->
    reply_chain m (m' :: l).

(** The messages that successive calls of [__anext__] yield. *)
Inductive yields : t -> list Message -> Prop :=
| yields_nil self : yields self []
| yields_cons self m self' l :
    __anext__ self = (Yield m, self') ->
    yields self' l ->
    yields self (m :: l).

End Anext.

End ReplyChainIterator.

(** ** ContextManager *)

Module ContextManager.

(** A rough measure of how many characters are in each token. *)
Definition EST_CHARS_PER_TOKEN : Z := 3.

Definition NOTE_UNREADABLE : string :=
  Str.nl ++ Str.nl ++
  "A file was attached to this message, but it is either empty or is not a file type you can read.".

Definition NOTE_TOO_LARGE : string :=
  Str.nl ++ Str.nl ++
  "A file was attached to this message, but it was too large to be read.".

Definition NOTE_CONTENTS : string :=
  Str.nl ++ Str.nl ++
  "A file was attached to this message. Here are the contents:" ++ Str.nl.

(** The template that [convert_chat_history_to_prompt] binds to
    [chat_template] in its first statement. *)
Definition BUILTIN_TEMPLATE : string :=
  "{% for message in messages %}{% if message['role'] == 'user' %}{{ '### Instruction:\n' + message['content'].strip()}}{% elif message['role'] == 'system' %}{{ message['content'].strip() }}{% elif message['role'] == 'assistant' %}{{ '### Response\n'  + message['content'] }}{% endif %}{{'\n\n'}}{% endfor %}{{ '### Response:\n' }}".

(** The local variables of [compile_chat_history] that its loop updates. *)
Record Locals : Type := {
  token_count : Z;
  args : option ParsedArgs;
  system_prompt : option string;
  messages : list CompiledMessage
}.

Definition set_args (a : option ParsedArgs) (st : Locals) : Locals :=
  {| token_count := token_count st; args := a;
     system_prompt := system_prompt st; messages := messages st |}.

Definition set_system_prompt (p : option string) (st : Locals) : Locals :=
  {| token_count := token_count st; args := args st;
     system_prompt := p; messages := messages st |}.

(** [messages.insert(0, entry)] followed by [token_count += added_tokens]. *)
Definition accept (entry : CompiledMessage) (added_tokens : Z)
    (st : Locals) : Locals :=
  {| token_count := token_count st + added_tokens; args := args st;
     system_prompt := system_prompt st; messages := entry :: messages st |}.

(** [if not args: args = message_args]: the command that applies to the
    history is the first one met, which is the newest. *)
Definition active_command (args : option ParsedArgs)
    (message_args : ParsedArgs) : ParsedArgs :=
  match args with
  | None => message_args
  | Some a => a
  end.

(** The captured system prompt is the prompt of the active command, and is
    there exactly when that command carries the directive. *)
Definition follows_active (st : Locals) : Prop :=
  system_prompt st
  = match args st with
    | Some a => if use_as_system_prompt a then Some (prompt a) else None
    | None => None
    end.

(** How an iteration of the loop ends: [continue] or falling off the end of
    the body, or [break]. *)
Inductive flow : Type := Continue | Break.

(** The three things that [_get_text] appends for one attachment. *)
Definition augment (text attachment_content : string)
    (remaining_tokens : Z) : string :=
  if (negb (Str.truthy attachment_content)
      || Str.isspace attachment_content)%bool
  then text ++ NOTE_UNREADABLE
  else if Str.len attachment_content / EST_CHARS_PER_TOKEN >? remaining_tokens
  then text ++ NOTE_TOO_LARGE
  else text ++ NOTE_CONTENTS ++ attachment_content.

(** The note that goes with an attachment whose extracted content is [c],
    given the remaining budget, case by case. *)
Inductive appended (remaining_tokens : Z) (c : string) : string -> Prop :=
| appended_unreadable :
    c = "" \/ Str.isspace c = true ->
    appended remaining_tokens c NOTE_UNREADABLE
| appended_too_large :
    c <> "" -> Str.isspace c = false ->
    Str.len c / EST_CHARS_PER_TOKEN > remaining_tokens ->
    appended remaining_tokens c NOTE_TOO_LARGE
| appended_contents :
    c <> "" -> Str.isspace c = false ->
    Str.len c / EST_CHARS_PER_TOKEN <= remaining_tokens ->
    appended remaining_tokens c (NOTE_CONTENTS ++ c).

(** The three branches of [read_attachment]. *)
Inductive kind : Type := PlainText | Pdf | Unsupported.

Definition kind_of (a : Attachment) : kind :=
  match content_type a with
  | None => PlainText
  | Some ct =>
      if (negb (Str.truthy ct) || Str.startswith ct "text/")%bool
      then PlainText
      else if Str.contains "application/pdf" ct then Pdf
      else Unsupported
  end.

Definition succeeded {A} (r : exn + A) : bool :=
  match r with
  | inl _ => false
  | inr _ => true
  end.

(** The [except (CommandError, ParserExitedException)] clause. *)
Definition caught (e : exn) : bool :=
  match e with
  | CommandError | ParserExitedException => true
  | _ => false
  end.

Section Methods.

(** [ChatbotParser.parse], from synthea/CommandParser.py. An instance of
    [ParsedArgs] is taken to be truthy. *)
Variable parse : string -> exn + ParsedArgs.
(** [channel.fetch_message(message_id)] *)
Variable fetch_message : Z -> Z -> exn + Message.
(** [bytes.decode()] *)
Variable decode : bytes -> exn + string.
(** [pypdf.PdfReader(file).pages] with, for each page, the outcome of
    [page.extract_text()]. *)
Variable PdfReader : bytes -> exn + list (exn + string).
(** [Environment().from_string(template).render(messages=...)] *)
Variable render_template : string -> list CompiledMessage -> exn + string.
(** [SyntheaClient.SYSTEM_TAG] *)
Variable SYSTEM_TAG : string.
(** [Config()] *)
Variable config : Config.
(** [self.bot_user_id] *)
Variable bot_user_id : Z.

(** [message.clean_content.lower().startswith(config.command_start_str.lower())] *)
Definition is_command (message : Message) : bool :=
  Str.startswith (Str.lower (clean_content message))
                 (Str.lower (command_start_str config)).

Definition convert_chat_history_to_prompt
    (chat_history : list CompiledMessage) (chat_template : string)
    : M string :=
  let chat_template := BUILTIN_TEMPLATE in
  let* formatted_chat := lift (render_template chat_template chat_history) in
  ret formatted_chat.

(** The [for page in reader.pages] loop of [read_attachment]. *)
Fixpoint read_pages (pages : list (exn + string))
    (attachment_string : string) : M string :=
  match pages with
  | [] => ret attachment_string
  | page :: pages' =>
      let* page_text := lift page in
      read_pages pages' (attachment_string ++ Str.nl ++ page_text)
  end.

(** The calls to [print] are left out. *)
Definition read_attachment (message : Attachment) : M string :=
  let attachment_string := "" in
  let* attachment_bytes := lift (read message) in
  match content_type message with
  | None => lift (decode attachment_bytes)
  | Some ct =>
      if (negb (Str.truthy ct) || Str.startswith ct "text/")%bool then
        lift (decode attachment_bytes)
      else if Str.contains "application/pdf" ct then
        let* _ := match save message with
                  | Some e => raise e
                  | None => write_file (filename message) attachment_bytes
                  end in
        let* file := read_file (filename message) in
        let* pages := lift (PdfReader file) in
        let* attachment_string := read_pages pages attachment_string in
        let* _ := os_remove (filename message) in
        ret attachment_string
      else ret attachment_string
  end.

(** Every step that [read_attachment] takes for [a] succeeds: the
    download, and then the decoding of a text, or the saving, opening and
    page extraction of a PDF. *)
Definition readable (a : Attachment) : bool :=
  match read a with
  | inl _ => false
  | inr b =>
      match kind_of a with
      | PlainText => succeeded (decode b)
      | Pdf =>
          match save a, PdfReader b with
          | None, inr pages => forallb succeeded pages
          | _, _ => false
          end
      | Unsupported => true
      end
  end.

(** The contents of the attachments of a message, read in order. *)
Fixpoint read_all (l : list Attachment) : M (list string) :=
  match l with
  | [] => ret []
  | attachment :: l' =>
      let* c := read_attachment attachment in
      let* cs := read_all l' in
      ret (c :: cs)
  end.

(** The [for attachment in message.attachments] loop of [_get_text]. *)
Fixpoint read_attachments (l : list Attachment) (text : string)
    (remaining_tokens : Z) : M string :=
  match l with
  | [] => ret text
  | attachment :: l' =>
      let* attachment_content := read_attachment attachment in
      read_attachments l' (augment text attachment_content remaining_tokens)
                       remaining_tokens
  end.

(** The value that [_get_text] binds to [text] before it turns to the
    attachments: the description of the first embed of a message of the bot,
    [None] when that embed has none, and else the prompt of the command or
    the raw text. *)
Definition initial_text (message : Message) : M (option string) :=
  match (if Z.eqb (user_id (author message)) bot_user_id
         then head (embeds message) else None) with
  | Some embed => ret (description embed)
  | None =>
      if is_command message then
        match parse (clean_content message) with
        | inr a => ret (Some (prompt a))
        | inl e =>
            if caught e then ret (Some (clean_content message)) else raise e
        end
      else ret (Some (clean_content message))
  end.

(** The text that [_get_text] starts from, before the attachments, where
    it is a string; [None] is of no use to [text + ...] and [len(text)],
    which raise [TypeError]. *)
Definition base_text (message : Message) : M string :=
  let* text := initial_text message in
  match text with
  | Some s => ret s
  | None => raise TypeError
  end.

(** With [text] bound to [None], the first [text + ...] raises [TypeError]
    once the first attachment has been read, and [len(text)] raises it when
    there is no attachment. *)
Definition _get_text (message : Message) (remaining_tokens : Z)
    : M (string * Z) :=
  let* text := initial_text message in
  match text with
  | Some text =>
      let* text := read_attachments (attachments message) text
                                    remaining_tokens in
      let tokens := Str.len text / EST_CHARS_PER_TOKEN in
      ret (text, tokens)
  | None =>
      match attachments message with
      | [] => raise TypeError
      | attachment :: _ =>
          let* _ := read_attachment attachment in
          raise TypeError
      end
  end.

(** The entry that the loop inserts for an accepted message. *)
Definition entry_of (message : Message) (text : string) : CompiledMessage :=
  if Z.eqb (user_id (author message)) bot_user_id then
    {| role := "assistant"; content := text |}
  else
    {| role := "user";
       content := "Message from " ++ display_name (author message)
                  ++ " " ++ Str.nl ++ " " ++ text |}.

(** [embed.footer.text == SyntheaClient.SYSTEM_TAG] on the first embed of
    the message fetched again. *)
Definition system_tagged (full_message : Message) : bool :=
  match embeds full_message with
  | embed :: _ =>
      match footer_text embed with
      | Some t => String.eqb t SYSTEM_TAG
      | None => false
      end
  | [] => false
  end.

(** The loop body from the call of [_get_text] to its end. *)
Definition extract_and_accept (history_token_limit : Z) (st : Locals)
    (message : Message) : M (flow * Locals) :=
  let* (text, added_tokens) :=
    _get_text message (history_token_limit - token_count st) in
  let* skip :=
    match args st with
    | None =>
        if Z.eqb (user_id (author message)) bot_user_id then
          let* full_message :=
            lift (fetch_message (channel message) (id message)) in
          ret (system_tagged full_message)
        else ret false
    | Some _ => ret false
    end in
  if skip then ret (Continue, st)
  else if negb (Str.truthy text) then ret (Continue, st)
  else if added_tokens + token_count st >? history_token_limit then
    ret (Break, st)
  else ret (Continue, accept (entry_of message text) added_tokens st).

(** One iteration of [async for message in history_iterator]. *)
Definition loop_body (history_token_limit : Z) (st : Locals)
    (message : Message) : M (flow * Locals) :=
  if is_command message then
    let* message_args := lift (parse (clean_content message)) in
    let args1 := active_command (args st) message_args in
    let st1 := set_args (Some args1) st in
    if (negb (Str.truthy_opt (system_prompt st1))
        && use_as_system_prompt args1)%bool
    then ret (Continue, set_system_prompt (Some (prompt args1)) st1)
    else extract_and_accept history_token_limit st1 message
  else extract_and_accept history_token_limit st message.

(** [async for message in history_iterator: ...]; [fuel] bounds the
    number of messages drawn from the iterator. *)
Fixpoint async_for (fuel : nat) (history_token_limit : Z)
    (history_iterator : ReplyChainIterator.t) (st : Locals) : M Locals :=
  match fuel with
  | O => out_of_fuel
  | S fuel' =>
      match ReplyChainIterator.__anext__ fetch_message history_iterator with
      | (ReplyChainIterator.Yield message, history_iterator') =>
          let* (fl, st') := loop_body history_token_limit st message in
          match fl with
          | Continue =>
              async_for fuel' history_token_limit history_iterator' st'
          | Break => ret st'
          end
      | (ReplyChainIterator.StopAsyncIteration, _) => ret st
      | (ReplyChainIterator.Propagate e, _) => raise e
      end
  end.

Definition compile_chat_history (fuel : nat) (message : Message)
    (history_iterator : ReplyChainIterator.t)
    (default_system_prompt : option string)
    : M (list CompiledMessage * option ParsedArgs) :=
  let history_token_limit :=
    context_length config - max_new_tokens config in
  match default_system_prompt with
  | None => raise TypeError
  | Some default =>
      let system_prompt_tokens := Str.len default / EST_CHARS_PER_TOKEN in
      let st0 := {| token_count := 0 + system_prompt_tokens;
                    args := None; system_prompt := None;
                    messages := [] |} in
      let* st := async_for fuel history_token_limit history_iterator st0 in
      let system_entry :=
        {| role := "system";
           content := match system_prompt st with
                      | Some p => if Str.truthy p then p else default
                      | None => default
                      end |} in
      ret (system_entry :: messages st, args st)
  end.

Definition generate_chat_history_from_chat (fuel : nat)
    (message : Message) (system_prompt : option string)
    : M (list CompiledMessage * option ParsedArgs) :=
  let history_iterator := ReplyChainIterator.init message in
  compile_chat_history fuel message history_iterator system_prompt.

(** The command that a pass over the messages [l], newest first, records:
    the parsed command of the first command message. *)
Definition newest_command (l : list Message) : option ParsedArgs :=
  match List.find is_command l with
  | Some m =>
      match parse (clean_content m) with
      | inr a => Some a
      | inl _ => None
      end
  | None => None
  end.

(** The tokens that the loop counts for accepted messages: those of the
    extracted texts. *)
Definition tokens_of (accepted : list (Message * string)) : Z :=
  fold_right (fun p n => Str.len (snd p) / EST_CHARS_PER_TOKEN + n) 0 accepted.

(** A message written by a user, without the command prefix and without
    attachments. *)
Definition plain (m : Message) : bool :=
  (negb (is_command m)
   && negb (Z.eqb (user_id (author m)) bot_user_id)
   && match attachments m with [] => true | _ :: _ => false end)%bool.

(** The messages of a chain of plain messages, newest first, that fit the
    budget: empty ones are passed over, and the first one that would take the
    count over the limit ends the selection. *)
Fixpoint fit (history_token_limit token_count : Z) (l : list Message)
    : list Message :=
  match l with
  | [] => []
  | m :: l' =>
      if negb (Str.truthy (clean_content m)) then
        fit history_token_limit token_count l'
      else
        let added := Str.len (clean_content m) / EST_CHARS_PER_TOKEN in
        if added + token_count >? history_token_limit then []
        else m :: fit history_token_limit (token_count + added) l'
  end.

End Methods.

End ContextManager.

(** ** A small world to run the code in

    A command parser that knows four command lines, a channel holding a
    handful of messages, an ASCII codec and a PDF library that reads files
    starting with [%PDF]. *)

Module Demo.

Import ContextManager.

Definition config : Config :=
  {| context_length := 100; max_new_tokens := 10;
     command_start_str := "!syn" |}.

Definition bot_user_id : Z := 1.

Definition SYSTEM_TAG : string := "system".

Definition parse (s : string) : exn + ParsedArgs :=
  if String.eqb s "!syn hi" then
    inr {| prompt := "hi"; use_as_system_prompt := false |}
  else if String.eqb s "!syn -usp Be terse" then
    inr {| prompt := "Be terse"; use_as_system_prompt := true |}
  else if String.eqb s "!syn -usp Be kind" then
    inr {| prompt := "Be kind"; use_as_system_prompt := true |}
  else if String.eqb s "!syn -usp" then
    inr {| prompt := ""; use_as_system_prompt := true |}
  else inl CommandError.

Definition ascii_byte (b : Byte.byte) : bool :=
  (Byte.to_nat b <? 128)%nat.

Definition decode (b : bytes) : exn + string :=
  if forallb ascii_byte b then inr (string_of_list_byte b)
  else inl UnicodeDecodeError.

(** One page, holding what follows the magic number. *)
Definition PdfReader (b : bytes) : exn + list (exn + string) :=
  if String.prefix "%PDF" (string_of_list_byte b) then
    inr [inr (string_of_list_byte (drop 4 b))]
  else inl PdfReadError.

(** What the built-in template renders to. *)
Definition render_builtin (h : list CompiledMessage) : string :=
  Str.join
    (map (fun message =>
            (if String.eqb (role message) "user" then
               "### Instruction:" ++ Str.nl ++ Str.strip (content message)
             else if String.eqb (role message) "system" then
               Str.strip (content message)
             else if String.eqb (role message) "assistant" then
               "### Response" ++ Str.nl ++ content message
             else "")
            ++ Str.nl ++ Str.nl) h)
  ++ "### Response:" ++ Str.nl.

(** A template that prints the content of the first message. *)
Definition FIRST_CONTENT : string := "{{ messages[0]['content'] }}".

(** A template engine that knows the two templates above. *)
Definition render_template (t : string) (h : list CompiledMessage)
    : exn + string :=
  if String.eqb t BUILTIN_TEMPLATE then inr (render_builtin h)
  else if String.eqb t FIRST_CONTENT then
    match h with
    | message :: _ => inr (content message)
    | [] => inl TemplateError
    end
  else inl TemplateError.

Definition bob : User := {| user_id := 7; display_name := "bob" |}.
Definition bot : User := {| user_id := 1; display_name := "synthea" |}.

Definition plain (i : Z) (who : User) (text : string)
    (reply_to : option Z) : Message :=
  {| id := i; channel := 0; author := who; clean_content := text;
     embeds := []; attachments := [];
     reference := match reply_to with
                  | Some j => Some {| message_id := j |}
                  | None => None
                  end |}.

(** Oldest "A", then "B", then "C", each a reply to the one before. *)
Definition msgA : Message := plain 10 bob "A" None.
Definition msgB : Message := plain 11 bob "B" (Some 10).
Definition msgC : Message := plain 12 bob "C" (Some 11).

(** A reply to a message that has been deleted. *)
Definition msgOrphan : Message := plain 13 bob "D" (Some 99).

(** An older command with the directive, answered by a newer command
    without it. *)
Definition cmdTerse : Message := plain 20 bob "!syn -usp Be terse" None.
Definition cmdHi : Message := plain 21 bob "!syn hi" (Some 20).

(** An older directive answered by a newer directive. *)
Definition cmdKind : Message := plain 22 bob "!syn -usp Be kind" (Some 20).

(** A message of three tokens. *)
Definition msgLong : Message := plain 14 bob "0123456789" None.

(** A command line that the parser rejects. *)
Definition cmdBad : Message := plain 30 bob "!syn --bogus" None.

(** A message of one blank, and an empty one. *)
Definition msgBlank : Message := plain 40 bob " " None.
Definition msgEmpty : Message := plain 41 bob "" None.

Definition text_file (name : string) (body : string) : Attachment :=
  {| content_type := Some "text/plain"; filename := name;
     read := inr (list_byte_of_string body); save := None |}.

Definition pdf_file (name : string) (body : bytes) : Attachment :=
  {| content_type := Some "application/pdf"; filename := name;
     read := inr body; save := None |}.

Definition with_attachments (m : Message) (l : list Attachment) : Message :=
  {| id := id m; channel := channel m; author := author m;
     clean_content := clean_content m; embeds := embeds m;
     attachments := l; reference := reference m |}.

(** A text file that is not valid text, and a PDF that is not a PDF. *)
Definition bad_text : Attachment :=
  {| content_type := Some "text/plain"; filename := "notes.txt";
     read := inr [Byte.xff]; save := None |}.
Definition bad_pdf : Attachment :=
  pdf_file "doc.pdf" (list_byte_of_string "garbage").
Definition good_pdf : Attachment :=
  pdf_file "doc.pdf" (list_byte_of_string "%PDFpage one").

Definition msgBadText : Message := with_attachments (plain 50 bob "see" None) [bad_text].
Definition msgBadPdf : Message := with_attachments (plain 51 bob "see" None) [bad_pdf].
Definition msgFiles : Message :=
  with_attachments (plain 52 bob "see" None)
    [text_file "a.txt" "hello"; text_file "b.txt" "   ";
     text_file "c.txt" "0123456789012345678901234567890123456789";
     good_pdf].

Definition store : gmap Z Message :=
  list_to_map
    (map (fun m => (id m, m))
         [msgA; msgB; msgC; msgOrphan; msgLong; cmdTerse; cmdHi; cmdKind;
          cmdBad; msgBlank; msgEmpty; msgBadText; msgBadPdf; msgFiles]).

Definition fetch_message (ch : Z) (i : Z) : exn + Message :=
  match store !! i with
  | Some m => inr m
  | None => inl NotFound
  end.

(** The methods, in this world. *)
Definition compile (fuel : nat) (m : Message) (default : option string)
    : M (list CompiledMessage * option ParsedArgs) :=
  generate_chat_history_from_chat parse fetch_message decode PdfReader
    SYSTEM_TAG config bot_user_id fuel m default.

Definition get_text : Message -> Z -> M (string * Z) :=
  _get_text parse decode PdfReader config bot_user_id.

Definition body (c : Config) : Z -> Locals -> Message -> M (flow * Locals) :=
  loop_body parse fetch_message decode PdfReader SYSTEM_TAG c bot_user_id.

Definition pass (c : Config)
    : nat -> Z -> ReplyChainIterator.t -> Locals -> M Locals :=
  async_for parse fetch_message decode PdfReader SYSTEM_TAG c bot_user_id.

(** A configuration that leaves room for two tokens of history. *)
Definition tight : Config :=
  {| context_length := 12; max_new_tokens := 10;
     command_start_str := "!syn" |}.

(** The locals on entry to the loop, for a default prompt of one letter. *)
Definition st0 : Locals :=
  {| token_count := 0; args := None; system_prompt := None;
     messages := [] |}.

Definition user_says (text : string) : CompiledMessage :=
  {| role := "user";
     content := "Message from bob " ++ Str.nl ++ " " ++ text |}.

Definition system_says (text : string) : CompiledMessage :=
  {| role := "system"; content := text |}.

(** A channel that holds the thread A, B, C and nothing else. *)
Definition fetch_thread (ch i : Z) : exn + Message :=
  if Z.eqb i 10 then inr msgA
  else if Z.eqb i 11 then inr msgB
  else if Z.eqb i 12 then inr msgC
  else inl NotFound.

(** An announcement of the bot, marked with the system tag, and a channel
    that holds it besides the other messages. *)
Definition msgTagged : Message :=
  {| id := 60; channel := 0; author := bot; clean_content := "";
     embeds := [{| description := Some "bob joined";
                   footer_text := Some "system" |}];
     attachments := []; reference := None |}.

Definition fetch_tagged (ch i : Z) : exn + Message :=
  if Z.eqb i 60 then inr msgTagged else fetch_message ch i.

(** A message with one small text file. *)
Definition msgNote : Message :=
  with_attachments (plain 53 bob "see" None) [text_file "a.txt" "hello"].

(** A command line in capitals. *)
Definition msgShout : Message := plain 70 bob "!SYN hi" None.

(** The locals once the command of [cmdHi] has been recorded. *)
Definition stHi : Locals :=
  {| token_count := 0;
     args := Some {| prompt := "hi"; use_as_system_prompt := false |};
     system_prompt := None;
     messages := [] |}.

End Demo.


(** * Properties *)

(** ** Strings and computations *)

Lemma append_cons c s t : String c s ++ t = String c (s ++ t).
Proof. reflexivity. Qed.

Lemma append_assoc (s t u : string) : (s ++ t) ++ u = s ++ t ++ u.
Proof.
  induction s as [| c s IH]; [reflexivity |].
  rewrite !append_cons. now rewrite IH.
Qed.

Lemma append_empty_r (s : string) : s ++ "" = s.
Proof.
  induction s as [| c s IH]; [reflexivity |].
  rewrite append_cons. now rewrite IH.
Qed.

Lemma truthy_false s : Str.truthy s = false <-> s = "".
Proof. destruct s; simpl; split; congruence. Qed.

Lemma truthy_true s : Str.truthy s = true <-> s <> "".
Proof. destruct s; simpl; split; congruence. Qed.

Lemma len_nonneg s : 0 <= Str.len s.
Proof. unfold Str.len. lia. Qed.

Lemma tokens_nonneg s : 0 <= Str.len s / ContextManager.EST_CHARS_PER_TOKEN.
Proof.
  apply Z.div_pos; [apply len_nonneg | reflexivity].
Qed.

Lemma bind_Return {A B} (c : M A) (k : A -> M B) fs b fs' :
  bind c k fs = (Return b, fs') <->
  exists a fs1, c fs = (Return a, fs1) /\ k a fs1 = (Return b, fs').
Proof.
  unfold bind. split.
  - destruct (c fs) as [[a | e |] fs1]; try discriminate. eauto.
  - intros (a & fs1 & -> & H). exact H.
Qed.

Lemma bind_eq {A B} (c : M A) (k : A -> M B) fs a fs1 :
  c fs = (Return a, fs1) -> bind c k fs = k a fs1.
Proof. unfold bind. now intros ->. Qed.

Lemma bind_Raise {A B} (c : M A) (k : A -> M B) fs e fs1 :
  c fs = (Raise e, fs1) -> bind c k fs = (Raise e, fs1).
Proof. unfold bind. now intros ->. Qed.

Lemma lift_fs {A} (r : exn + A) fs x fs' : lift r fs = (x, fs') -> fs' = fs.
Proof. destruct r; simpl; unfold raise, ret; congruence. Qed.

(** ** The reply-chain iterator *)

Section ReplyChainIteratorFacts.

Import ReplyChainIterator.

Variable fetch_message : Z -> Z -> exn + Message.

Lemma caught_spec e :
  caught e = true <-> e = NotFound \/ e = Forbidden \/ e = HTTPException.
Proof.
  destruct e; simpl; split; intros H; try discriminate; auto;
    destruct H as [H | [H | H]]; discriminate.
Qed.

Lemma anext_first start :
  __anext__ fetch_message (init start)
  = (Yield start, {| message := start; message_index := 1 |}).
Proof. reflexivity. Qed.

Lemma anext_started self :
  message_index self <> O ->
  __anext__ fetch_message self =
  match reference (message self) with
  | Some r =>
      match fetch_message (channel (message self)) (message_id r) with
      | inr m =>
          (Yield m, {| message := m;
                       message_index := message_index self + 1 |})
      | inl e =>
          (if caught e then StopAsyncIteration else Propagate e,
           {| message := message self;
              message_index := message_index self + 1 |})
      end
  | None => (StopAsyncIteration, self)
  end.
Proof.
  intros Hi. unfold __anext__.
  destruct (Nat.eqb_spec (message_index self) 0) as [E | _]; [contradiction |].
  destruct (reference (message self)) as [r |]; [| reflexivity].
  destruct (fetch_message _ _) as [e | m]; [| reflexivity].
  destruct (caught e); reflexivity.
Qed.

Lemma drain_started_sound fuel :
  forall self l,
    message_index self <> O ->
    drain fetch_message fuel self = Return l ->
    reply_chain fetch_message (message self) l /\ (length l < fuel)%nat.
Proof.
  induction fuel as [| fuel IH]; intros self l Hi Hd; [discriminate |].
  simpl in Hd. rewrite (anext_started _ Hi) in Hd.
  destruct (reference (message self)) as [r |] eqn:Hr.
  - destruct (fetch_message _ _) as [e | m] eqn:Hf.
    + destruct (caught e) eqn:Hc; [| discriminate].
      injection Hd as <-. split; [| simpl; lia].
      eapply chain_fetch_failed; eauto. now apply caught_spec.
    + destruct (drain fetch_message fuel _) as [l' | |] eqn:Hd';
        try discriminate.
      injection Hd as <-.
      apply IH in Hd'; [| simpl; lia].
      destruct Hd' as [Hc Hl]. simpl in Hc. split; [| simpl; lia].
      eapply chain_fetched; eauto.
  - injection Hd as <-. split; [| simpl; lia].
    now apply chain_no_reference.
Qed.

Lemma drain_started_complete m l :
  reply_chain fetch_message m l ->
  forall fuel i,
    i <> O -> (length l < fuel)%nat ->
    drain fetch_message fuel {| message := m; message_index := i |}
    = Return l.
Proof.
  induction 1 as [m Hr | m r e Hr Hf Hc | m r m' l Hr Hf Hch IH];
    intros fuel i Hi Hl; (destruct fuel as [| fuel]; [simpl in Hl; lia |]);
    simpl drain; rewrite anext_started by exact Hi; simpl message;
    rewrite Hr.
  - reflexivity.
  - apply caught_spec in Hc. rewrite Hf, Hc. reflexivity.
  - rewrite Hf. rewrite IH; [reflexivity | simpl; lia | simpl in Hl; lia].
Qed.

(** C7. Draining [ReplyChainIterator(start)] returns the list [l], without
    an error, exactly when [l] is [start] followed by the messages of its
    reply chain: each one fetched through the reference of the one before,
    up to the first message that has no reference or whose referenced
    message cannot be fetched (not found, forbidden, HTTP error). *)
Theorem reply_chain_iterator_yields fuel start l :
  drain fetch_message fuel (init start) = Return l <->
  exists older,
    l = start :: older
    /\ reply_chain fetch_message start older
    /\ (length l < fuel)%nat.
Proof.
  split.
  - destruct fuel as [| fuel]; [discriminate |].
    simpl. intros Hd.
    destruct (drain fetch_message fuel _) as [l' | |] eqn:Hd';
      try discriminate.
    injection Hd as <-.
    apply drain_started_sound in Hd'; [| simpl; lia].
    destruct Hd' as [Hc Hl]. exists l'. simpl in *. repeat split; auto; lia.
  - intros (older & -> & Hc & Hl).
    destruct fuel as [| fuel]; [simpl in Hl; lia |].
    simpl. rewrite (drain_started_complete _ _ Hc); [reflexivity | lia |].
    simpl in Hl. lia.
Qed.

(** *** Beyond the end of the chain, and chains that end *)

(** X1. An iterator that has stopped stays stopped: when a call of
    [__anext__] ends the iteration, so does the next call on the iterator as
    that call left it. *)
Theorem anext_stop_is_stable (self : t) :
  fst (__anext__ fetch_message self) = StopAsyncIteration ->
  fst (__anext__ fetch_message (snd (__anext__ fetch_message self)))
  = StopAsyncIteration.
Proof.
  destruct (Nat.eq_dec (message_index self) 0%nat) as [E | Hi].
  - unfold __anext__ at 1. rewrite E. simpl. discriminate.
  - rewrite (anext_started self Hi).
    destruct (reference (message self)) as [r |] eqn:Hr.
    + destruct (fetch_message _ _) as [e | m] eqn:Hf; [| discriminate].
      destruct (caught e) eqn:Hc; [| discriminate].
      intros _. simpl snd. rewrite anext_started by (simpl; lia).
      simpl message. now rewrite Hr, Hf, Hc.
    + intros _. simpl snd. rewrite (anext_started self Hi). now rewrite Hr.
Qed.

Lemma drain_started_terminates fuel :
  (forall ch i m, fetch_message ch i = inr m -> id m = i) ->
  (forall ch i m r,
      fetch_message ch i = inr m -> reference m = Some r ->
      0 <= message_id r < i) ->
  forall self,
    message_index self <> O ->
    (forall r, reference (message self) = Some r ->
               0 <= message_id r < id (message self)) ->
    (Z.to_nat (id (message self)) < fuel)%nat ->
    drain fetch_message fuel self <> OutOfFuel.
Proof.
  intros Hid Hold. induction fuel as [| fuel IH]; intros self Hi Href Hf;
    [lia |].
  simpl. rewrite (anext_started self Hi).
  destruct (reference (message self)) as [r |] eqn:Hr; [| discriminate].
  destruct (fetch_message _ _) as [e | m] eqn:Hfetch.
  - destruct (caught e); discriminate.
  - pose proof (Hid _ _ _ Hfetch) as Em.
    pose proof (Href r eq_refl) as Hlt.
    assert (Hnext : drain fetch_message fuel
                      {| message := m;
                         message_index := message_index self + 1 |}
                    <> OutOfFuel).
    { apply IH; simpl.
      - lia.
      - intros r' Hr'. rewrite Em. eapply Hold; eauto.
      - lia. }
    destruct (drain fetch_message fuel _); congruence.
Qed.

(** X2. The traversal ends on a platform where a reply refers to a message
    with a smaller, non-negative id and a fetch returns the message that was
    asked for: with more fuel than the id of the starting message plus one,
    draining the iterator does not run out of fuel. *)
Theorem drain_terminates (start : Message) (fuel : nat) :
  (forall ch i m, fetch_message ch i = inr m -> id m = i) ->
  (forall ch i m r,
      fetch_message ch i = inr m -> reference m = Some r ->
      0 <= message_id r < i) ->
  (forall r, reference start = Some r -> 0 <= message_id r < id start) ->
  (Z.to_nat (id start) + 1 < fuel)%nat ->
  drain fetch_message fuel (init start) <> OutOfFuel.
Proof.
  intros Hid Hold Hstart Hfuel.
  destruct fuel as [| fuel]; [lia |]. simpl.
  assert (H : drain fetch_message fuel
                {| message := start; message_index := (0 + 1)%nat |}
              <> OutOfFuel).
  { apply drain_started_terminates; simpl; auto; lia. }
  destruct (drain fetch_message fuel _); congruence.
Qed.

End ReplyChainIteratorFacts.

(** ** The context manager *)

Section ContextManagerFacts.

Import ContextManager.

Variable parse : string -> exn + ParsedArgs.
Variable fetch_message : Z -> Z -> exn + Message.
Variable decode : bytes -> exn + string.
Variable PdfReader : bytes -> exn + list (exn + string).
Variable render_template : string -> list CompiledMessage -> exn + string.
Variable SYSTEM_TAG : string.
Variable config : Config.
Variable bot_user_id : Z.

Local Abbreviation is_command := (ContextManager.is_command config).
Local Abbreviation read_attachment :=
  (ContextManager.read_attachment decode PdfReader).
Local Abbreviation read_attachments :=
  (ContextManager.read_attachments decode PdfReader).
Local Abbreviation initial_text :=
  (ContextManager.initial_text parse config bot_user_id).
Local Abbreviation base_text :=
  (ContextManager.base_text parse config bot_user_id).
Local Abbreviation _get_text :=
  (ContextManager._get_text parse decode PdfReader config bot_user_id).
Local Abbreviation entry_of := (ContextManager.entry_of bot_user_id).
Local Abbreviation extract_and_accept :=
  (ContextManager.extract_and_accept parse fetch_message decode PdfReader
     SYSTEM_TAG config bot_user_id).
Local Abbreviation loop_body :=
  (ContextManager.loop_body parse fetch_message decode PdfReader
     SYSTEM_TAG config bot_user_id).
Local Abbreviation async_for :=
  (ContextManager.async_for parse fetch_message decode PdfReader
     SYSTEM_TAG config bot_user_id).
Local Abbreviation compile_chat_history :=
  (ContextManager.compile_chat_history parse fetch_message decode PdfReader
     SYSTEM_TAG config bot_user_id).
Local Abbreviation generate_chat_history_from_chat :=
  (ContextManager.generate_chat_history_from_chat parse fetch_message decode
     PdfReader SYSTEM_TAG config bot_user_id).
Local Abbreviation convert_chat_history_to_prompt :=
  (ContextManager.convert_chat_history_to_prompt render_template).
Local Abbreviation history_token_limit :=
  (context_length config - max_new_tokens config).

(** *** The renderer *)

(** C6. [convert_chat_history_to_prompt] renders the template that its
    first statement assigns, whatever template the caller passes: two
    calls that differ only in [chat_template] give the same outcome, the
    one of rendering the built-in template. *)
Theorem convert_chat_history_to_prompt_ignores_template
    (chat_history : list CompiledMessage) (t1 t2 : string) (fs : FS) :
  convert_chat_history_to_prompt chat_history t1 fs
  = convert_chat_history_to_prompt chat_history t2 fs
  /\ convert_chat_history_to_prompt chat_history t1 fs
     = lift (render_template BUILTIN_TEMPLATE chat_history) fs.
Proof.
  split; [reflexivity |].
  unfold ContextManager.convert_chat_history_to_prompt, bind.
  destruct (render_template BUILTIN_TEMPLATE chat_history); reflexivity.
Qed.

(** *** A missing default system prompt *)

(** C10. With [default_system_prompt = None], [compile_chat_history] raises
    [TypeError] whatever the chain is and even when no message can be drawn
    from the iterator ([fuel] is arbitrary, 0 included), leaving the
    working directory as it was; [generate_chat_history_from_chat], whose
    [system_prompt] defaults to [None], passes it on unchanged and raises
    the same error. With a string, the loop is entered. *)
Theorem compile_chat_history_none_default
    (fuel : nat) (message : Message)
    (history_iterator : ReplyChainIterator.t) (fs : FS) :
  compile_chat_history fuel message history_iterator None fs
  = (Raise TypeError, fs)
  /\ generate_chat_history_from_chat fuel message None fs
     = (Raise TypeError, fs)
  /\ forall default,
       compile_chat_history 0 message history_iterator (Some default) fs
       = (OutOfFuel, fs).
Proof. repeat split. Qed.

(** *** Text extraction *)

Lemma initial_text_fs m fs r fs' : initial_text m fs = (r, fs') -> fs' = fs.
Proof.
  unfold ContextManager.initial_text.
  destruct (if Z.eqb _ _ then _ else _) as [embed |].
  - unfold ret. congruence.
  - destruct (is_command m); [| unfold ret; congruence].
    destruct (parse _) as [e | a]; [| unfold ret; congruence].
    destruct (caught e); unfold ret, raise; congruence.
Qed.

Lemma base_text_fs m fs r fs' : base_text m fs = (r, fs') -> fs' = fs.
Proof.
  unfold ContextManager.base_text, bind.
  destruct (initial_text m fs) as [[[t |] | e |] fs1] eqn:E;
    apply initial_text_fs in E as ->; unfold ret, raise; congruence.
Qed.

Lemma base_text_initial m fs t fs' :
  base_text m fs = (Return t, fs') ->
  initial_text m fs = (Return (Some t), fs).
Proof.
  unfold ContextManager.base_text, bind.
  destruct (initial_text m fs) as [[[t' |] | e |] fs1] eqn:E;
    apply initial_text_fs in E as ->; unfold ret, raise; congruence.
Qed.

(** With a string to start from, [_get_text] is the loop over the
    attachments followed by the count. *)
Lemma get_text_of_base m remaining_tokens fs t fs0 :
  base_text m fs = (Return t, fs0) ->
  _get_text m remaining_tokens fs
  = bind (read_attachments (attachments m) t remaining_tokens)
         (fun text => ret (text, Str.len text / EST_CHARS_PER_TOKEN)) fs.
Proof.
  intros H. apply base_text_initial in H.
  unfold ContextManager._get_text. now rewrite (bind_eq _ _ _ _ _ H).
Qed.

(** [_get_text] returns only from a string. *)
Lemma get_text_Return m remaining_tokens fs r fs' :
  _get_text m remaining_tokens fs = (Return r, fs') ->
  exists t,
    base_text m fs = (Return t, fs)
    /\ bind (read_attachments (attachments m) t remaining_tokens)
            (fun text => ret (text, Str.len text / EST_CHARS_PER_TOKEN)) fs
       = (Return r, fs').
Proof.
  unfold ContextManager._get_text. intros H.
  apply bind_Return in H as (t & fs1 & Hi & H).
  pose proof (initial_text_fs _ _ _ _ Hi) as ->.
  destruct t as [t |].
  - exists t. split; [| exact H].
    unfold ContextManager.base_text. now rewrite (bind_eq _ _ _ _ _ Hi).
  - destruct (attachments m) as [| a l]; [discriminate |].
    unfold bind, raise in H.
    destruct (read_attachment a fs) as [[c | e |] fs2]; discriminate.
Qed.

(** Without a description there is no text to return: [_get_text] raises,
    [TypeError] at [len(text)] when the message has no attachment. *)
Lemma get_text_without_description m remaining_tokens fs embed :
  user_id (author m) = bot_user_id ->
  head (embeds m) = Some embed ->
  description embed = None ->
  (forall r fs', _get_text m remaining_tokens fs <> (Return r, fs'))
  /\ (attachments m = [] ->
      _get_text m remaining_tokens fs = (Raise TypeError, fs)).
Proof.
  intros Hb He Hd. split.
  - intros r fs' H. apply get_text_Return in H as (t & H & _).
    apply base_text_initial in H. revert H.
    unfold ContextManager.initial_text.
    rewrite Hb, Z.eqb_refl, He, Hd. discriminate.
  - intros Ha. unfold ContextManager._get_text, ContextManager.initial_text.
    rewrite Hb, Z.eqb_refl, He, Hd, Ha. reflexivity.
Qed.

Lemma base_text_returns m fs :
  (forall s e, parse s = inl e -> caught e = true) ->
  (forall embed,
      user_id (author m) = bot_user_id ->
      head (embeds m) = Some embed ->
      description embed <> None) ->
  exists t, base_text m fs = (Return t, fs).
Proof.
  intros Hp Hd.
  unfold ContextManager.base_text, ContextManager.initial_text.
  destruct (Z.eqb_spec (user_id (author m)) bot_user_id) as [Hb | _].
  - destruct (head (embeds m)) as [embed |] eqn:He.
    + specialize (Hd embed Hb eq_refl).
      destruct (description embed) as [d |]; [| congruence].
      exists d. reflexivity.
    + destruct (is_command m); [| eexists; reflexivity].
      destruct (parse _) as [e | a] eqn:E; [| eexists; reflexivity].
      rewrite (Hp _ _ E). eexists; reflexivity.
  - destruct (is_command m); [| eexists; reflexivity].
    destruct (parse _) as [e | a] eqn:E; [| eexists; reflexivity].
    rewrite (Hp _ _ E). eexists; reflexivity.
Qed.

Lemma augment_appended text c remaining_tokens :
  exists note,
    appended remaining_tokens c note
    /\ augment text c remaining_tokens = text ++ note.
Proof.
  unfold augment.
  destruct (Str.truthy c) eqn:Ht; simpl.
  - apply truthy_true in Ht.
    destruct (Str.isspace c) eqn:Hs.
    + eexists; split; [apply appended_unreadable; now right | reflexivity].
    + destruct (Z.gtb_spec (Str.len c / EST_CHARS_PER_TOKEN)
                           remaining_tokens) as [Hgt | Hle].
      * eexists; split; [apply appended_too_large; auto; lia | reflexivity].
      * eexists; split; [apply appended_contents; auto | reflexivity].
  - apply truthy_false in Ht.
    eexists; split; [apply appended_unreadable; now left | reflexivity].
Qed.




Lemma read_attachments_read_all l :
  forall text remaining_tokens fs cs fs',
    read_all decode PdfReader l fs = (Return cs, fs') ->
    read_attachments l text remaining_tokens fs
    = (Return (fold_left (fun t c => augment t c remaining_tokens) cs text),
       fs').
Proof.
  induction l as [| a l IH]; intros text remaining_tokens fs cs fs' H.
  - simpl in H. unfold ret in H. injection H as <- <-. reflexivity.
  - simpl in H. apply bind_Return in H as (c & fs1 & Hc & H).
    apply bind_Return in H as (cs' & fs2 & Hcs & H).
    unfold ret in H. injection H as <- <-.
    simpl. rewrite (bind_eq _ _ _ _ _ Hc). now apply IH.
Qed.


(** *** Reading attachments *)

Lemma read_pages_succeeded pages :
  forall acc fs,
    forallb succeeded pages = true ->
    exists s, read_pages pages acc fs = (Return s, fs).
Proof.
  induction pages as [| page pages IH]; intros acc fs H.
  - eexists; reflexivity.
  - simpl in H. apply andb_true_iff in H as [Hp H].
    destruct page as [e | page_text]; [discriminate |].
    destruct (IH (acc ++ Str.nl ++ page_text) fs H) as (s & Hs).
    exists s. simpl. exact Hs.
Qed.

Lemma read_attachment_readable a fs :
  readable decode PdfReader a = true ->
  exists s,
    read_attachment a fs
    = (Return s, match kind_of a with
                 | Pdf => delete (filename a) fs
                 | _ => fs
                 end).
Proof.
  unfold readable, ContextManager.read_attachment, kind_of.
  destruct (read a) as [e | b]; [discriminate |].
  rewrite (bind_eq _ _ fs b fs) by reflexivity.
  destruct (content_type a) as [ct |].
  - destruct (negb (Str.truthy ct) || Str.startswith ct "text/")%bool.
    + destruct (decode b) as [e | s]; [discriminate |].
      intros _. exists s. reflexivity.
    + destruct (Str.contains "application/pdf" ct).
      * destruct (save a) as [e |]; [discriminate |].
        destruct (PdfReader b) as [e | pages] eqn:Hpdf; [discriminate |].
        intros Hpages.
        destruct (read_pages_succeeded pages "" (<[filename a := b]> fs) Hpages)
          as (s & Hs).
        exists s. unfold bind, write_file, read_file, os_remove.
        rewrite lookup_insert_eq. rewrite Hpdf. simpl.
        rewrite Hs. rewrite lookup_insert_eq.
        unfold ret. now rewrite delete_insert_eq.
      * intros _. exists "". reflexivity.
  - destruct (decode b) as [e | s]; [discriminate |].
    intros _. exists s. reflexivity.
Qed.

Lemma read_all_readable l :
  forall fs,
    forallb (readable decode PdfReader) l = true ->
    exists cs fs',
      read_all decode PdfReader l fs = (Return cs, fs')
      /\ (forall a, In a l -> kind_of a = Pdf -> fs' !! filename a = None)
      /\ (forall n, fs !! n = None -> fs' !! n = None).
Proof.
  induction l as [| a l IH]; intros fs H.
  - exists [], fs. split; [reflexivity |]. split; [intros a [] | auto].
  - simpl in H. apply andb_true_iff in H as [Ha Hl].
    destruct (read_attachment_readable a fs Ha) as (c & Hc).
    set (fs1 := match kind_of a with
                | Pdf => delete (filename a) fs
                | _ => fs
                end) in Hc.
    destruct (IH fs1 Hl) as (cs & fs' & Hcs & Hpdf & Hkeep).
    exists (c :: cs), fs'. split; [| split].
    + simpl. rewrite (bind_eq _ _ _ _ _ Hc). rewrite (bind_eq _ _ _ _ _ Hcs).
      reflexivity.
    + intros a' [<- | Hin] Hk; [| now apply Hpdf].
      apply Hkeep. unfold fs1. rewrite Hk. apply lookup_delete_eq.
    + intros n Hn. apply Hkeep. unfold fs1.
      destruct (kind_of a); auto.
      rewrite lookup_delete_None. now right.
Qed.

(** C5, as the code has it. [_get_text] returns normally when the parser
    raises nothing but [CommandError] and [ParserExitedException] (which
    [_get_text] handles), the text it starts from is a string (the first
    embed of a message of the bot has a description) and every step of
    reading every attachment succeeds; an attachment of an unsupported type
    then reads as the empty string and so degrades into the fixed note; and
    on return no file saved for a PDF attachment is left in the working
    directory. Nothing is said of the runs in which a read fails or the
    description is missing. *)
Theorem get_text_returns_when_readable
    (m : Message) (remaining_tokens : Z) (fs : FS) :
  (forall s e, parse s = inl e -> caught e = true) ->
  (forall embed,
      user_id (author m) = bot_user_id ->
      head (embeds m) = Some embed ->
      description embed <> None) ->
  forallb (readable decode PdfReader) (attachments m) = true ->
  (exists text fs',
     _get_text m remaining_tokens fs
     = (Return (text, Str.len text / EST_CHARS_PER_TOKEN), fs')
     /\ (forall a, In a (attachments m) -> kind_of a = Pdf ->
                   fs' !! filename a = None))
  /\ (forall a text,
        In a (attachments m) -> kind_of a = Unsupported ->
        read_attachment a fs = (Return "", fs)
        /\ augment text "" remaining_tokens = text ++ NOTE_UNREADABLE).
Proof.
  intros Hparse Hdesc Hread. split.
  - destruct (base_text_returns m fs Hparse Hdesc) as (t & Ht).
    destruct (read_all_readable _ fs Hread) as (cs & fs' & Hcs & Hpdf & _).
    exists (fold_left (fun t c => augment t c remaining_tokens) cs t), fs'.
    split; [| exact Hpdf].
    rewrite (get_text_of_base _ _ _ _ _ Ht).
    rewrite (bind_eq _ _ _ _ _
               (read_attachments_read_all _ t remaining_tokens _ _ _ Hcs)).
    reflexivity.
  - intros a text Hin Hk. split; [| reflexivity].
    assert (Ha : readable decode PdfReader a = true).
    { rewrite forallb_forall in Hread. now apply Hread. }
    destruct (read_attachment_readable a fs Ha) as (s & Hs).
    rewrite Hk in Hs. rewrite Hs. f_equal. f_equal.
    revert Hs. unfold ContextManager.read_attachment.
    unfold kind_of in Hk. unfold readable in Ha.
    destruct (read a) as [e | b]; [discriminate |].
    rewrite (bind_eq _ _ fs b fs) by reflexivity.
    destruct (content_type a) as [ct |]; [| discriminate].
    destruct (negb (Str.truthy ct) || Str.startswith ct "text/")%bool;
      [discriminate |].
    destruct (Str.contains "application/pdf" ct); [discriminate |].
    unfold ret. congruence.
Qed.

(** *** Command lines that do not parse *)

(** C2. A command line that the parser rejects with [e] makes
    [compile_chat_history] raise [e]: the call of the parser in the loop is
    not guarded. [_get_text], which guards its own call, would have taken
    the raw text of the same message. *)
Theorem compile_chat_history_surfaces_parse_error
    (fuel : nat) (m : Message) (default : string) (fs : FS) (e : exn) :
  is_command m = true ->
  parse (clean_content m) = inl e ->
  generate_chat_history_from_chat (S fuel) m (Some default) fs
  = (Raise e, fs)
  /\ (caught e = true -> embeds m = [] ->
      base_text m fs = (Return (clean_content m), fs)).
Proof.
  intros Hc Hp. split.
  - unfold ContextManager.generate_chat_history_from_chat,
      ContextManager.compile_chat_history.
    apply bind_Raise. simpl.
    apply bind_Raise. unfold ContextManager.loop_body.
    rewrite Hc. apply bind_Raise. now rewrite Hp.
  - intros He Hemb.
    unfold ContextManager.base_text, ContextManager.initial_text.
    rewrite Hemb. simpl.
    destruct (Z.eqb _ _); rewrite Hc, Hp, He; reflexivity.
Qed.

(** *** One iteration of the loop *)

Lemma get_text_tokens m remaining_tokens fs text added fs' :
  _get_text m remaining_tokens fs = (Return (text, added), fs') ->
  added = Str.len text / EST_CHARS_PER_TOKEN.
Proof.
  intros H. apply get_text_Return in H as (t & _ & H).
  apply bind_Return in H as (t' & fs2 & _ & H).
  unfold ret in H. congruence.
Qed.

(** What the second half of the body does with the extracted text: it skips
    the message, stops the loop, or accepts the message. *)
Lemma extract_and_accept_cases L st m fs r fs' :
  extract_and_accept L st m fs = (Return r, fs') ->
  exists text added,
    _get_text m (L - token_count st) fs = (Return (text, added), fs')
    /\ (r = (Continue, st)
        \/ (r = (Break, st) /\ text <> "" /\ added + token_count st > L)
        \/ (r = (Continue, accept (entry_of m text) added st)
            /\ text <> "" /\ added + token_count st <= L)).
Proof.
  unfold ContextManager.extract_and_accept. intros H.
  apply bind_Return in H as ([text added] & fs1 & Hg & H).
  apply bind_Return in H as (skip & fs2 & Hs & H).
  assert (fs2 = fs1) as ->.
  { destruct (args st); [unfold ret in Hs; congruence |].
    destruct (Z.eqb _ _); [| unfold ret in Hs; congruence].
    apply bind_Return in Hs as (full & fs3 & Hf & Hs).
    apply lift_fs in Hf. unfold ret in Hs. congruence. }
  exists text, added.
  destruct skip; [unfold ret in H; injection H as <- <-; auto |].
  destruct (Str.truthy text) eqn:Ht; simpl in H;
    [| unfold ret in H; injection H as <- <-; auto].
  apply truthy_true in Ht.
  destruct (Z.gtb_spec (added + token_count st) L) as [Hgt | Hle];
    unfold ret in H; injection H as <- <-.
  - split; [exact Hg |]. right; left. repeat split; auto. lia.
  - split; [exact Hg |]. right; right. repeat split; auto.
Qed.

(** What the first half of the body does: it captures the prompt of the
    active command and moves on, or it hands over to the second half,
    having recorded the command of this message if it is the first. *)
Lemma loop_body_cases L st m fs r fs' :
  loop_body L st m fs = (Return r, fs') ->
  (exists message_args,
     is_command m = true
     /\ parse (clean_content m) = inr message_args
     /\ use_as_system_prompt (active_command (args st) message_args) = true
     /\ Str.truthy_opt (system_prompt st) = false
     /\ r = (Continue,
             set_system_prompt
               (Some (prompt (active_command (args st) message_args)))
               (set_args (Some (active_command (args st) message_args)) st))
     /\ fs' = fs)
  \/ (exists st1,
        ((is_command m = false /\ st1 = st)
         \/ (exists message_args,
               is_command m = true
               /\ parse (clean_content m) = inr message_args
               /\ (use_as_system_prompt
                     (active_command (args st) message_args) = false
                   \/ Str.truthy_opt (system_prompt st) = true)
               /\ st1 = set_args
                          (Some (active_command (args st) message_args)) st))
        /\ extract_and_accept L st1 m fs = (Return r, fs')).
Proof.
  unfold ContextManager.loop_body. intros H.
  destruct (is_command m) eqn:Hc; [| right; exists st; auto].
  apply bind_Return in H as (message_args & fs1 & Hp & H).
  assert (fs1 = fs) as -> by (eapply lift_fs; eauto).
  destruct (parse (clean_content m)) as [e | ma] eqn:Hparse;
    [discriminate |].
  simpl in Hp. unfold ret in Hp. injection Hp as ->.
  simpl in H.
  destruct (Str.truthy_opt (system_prompt st)) eqn:Hsp; simpl in H.
  - right. eexists. split; [right; exists message_args; eauto 6 |]. exact H.
  - destruct (use_as_system_prompt _) eqn:Hu.
    + left. exists message_args. unfold ret in H. injection H as <- <-.
      repeat split; auto.
    + right. eexists. split; [right; exists message_args; eauto 6 |]. exact H.
Qed.

(** The three outcomes of an iteration, as seen on [messages] and
    [token_count]. *)
Lemma loop_body_outcome L st m fs fl st' fs' :
  loop_body L st m fs = (Return (fl, st'), fs') ->
  (fl = Continue /\ messages st' = messages st
   /\ token_count st' = token_count st)
  \/ (fl = Break /\ messages st' = messages st
      /\ token_count st' = token_count st
      /\ exists text added,
           _get_text m (L - token_count st) fs = (Return (text, added), fs')
           /\ text <> "" /\ added + token_count st > L)
  \/ (fl = Continue
      /\ exists text added,
           _get_text m (L - token_count st) fs = (Return (text, added), fs')
           /\ text <> "" /\ 0 <= added /\ added + token_count st <= L
           /\ messages st' = entry_of m text :: messages st
           /\ token_count st' = token_count st + added).
Proof.
  intros H. apply loop_body_cases in H as [(ma & _ & _ & _ & _ & Hr & _) | H].
  - injection Hr as -> ->. left. auto.
  - destruct H as (st1 & Hst1 & H).
    assert (Hm : messages st1 = messages st /\ token_count st1 = token_count st).
    { destruct Hst1 as [[_ ->] | (ma & _ & _ & _ & ->)]; auto. }
    destruct Hm as [Hm Ht].
    apply extract_and_accept_cases in H as (text & added & Hg & H).
    rewrite Ht in Hg.
    destruct H as [Hr | [(Hr & Hne & Hgt) | (Hr & Hne & Hle)]];
      injection Hr as -> ->.
    + left. auto.
    + right; left. rewrite Ht in Hgt. repeat split; auto.
      exists text, added. auto.
    + right; right. split; [reflexivity |]. exists text, added.
      rewrite Ht in Hle. simpl. rewrite Hm, Ht.
      repeat split; auto.
      rewrite (get_text_tokens _ _ _ _ _ _ Hg). apply tokens_nonneg.
Qed.

(** An iteration never touches the recorded command once there is one, and
    keeps the captured prompt in step with it. *)
Lemma loop_body_args L st m fs fl st' fs' :
  loop_body L st m fs = (Return (fl, st'), fs') ->
  (forall a, args st = Some a -> args st' = Some a)
  /\ (follows_active st -> follows_active st').
Proof.
  intros H. apply loop_body_cases in H as [(ma & _ & _ & Hu & Hsp & Hr & _) | H].
  - injection Hr as -> ->. simpl. split.
    + intros a Ha. now rewrite Ha.
    + intros _. unfold follows_active. simpl. now rewrite Hu.
  - destruct H as (st1 & Hst1 & H).
    apply extract_and_accept_cases in H as (text & added & _ & H).
    assert (Hst' : args st' = args st1 /\ system_prompt st' = system_prompt st1).
    { destruct H as [Hr | [(Hr & _) | (Hr & _)]]; injection Hr as -> ->; auto. }
    destruct Hst' as [Ea Es].
    destruct Hst1 as [[_ ->] | (ma & _ & Hp & Hno & ->)].
    + split.
      * intros a Ha. congruence.
      * unfold follows_active. now rewrite Ea, Es.
    + simpl in Ea, Es. split.
      * intros a Ha. rewrite Ea, Ha. reflexivity.
      * unfold follows_active. rewrite Ea, Es.
        destruct (args st) as [a |] eqn:Ha; simpl; [auto |].
        intros Hsp. rewrite Hsp in Hno |- *. simpl in Hno.
        destruct Hno as [Hno | Hno]; [now rewrite Hno | discriminate].
Qed.

(** The command that an iteration leaves recorded. *)
Lemma loop_body_records L st m fs fl st' fs' :
  loop_body L st m fs = (Return (fl, st'), fs') ->
  args st'
  = match args st with
    | Some a => Some a
    | None =>
        if is_command m then
          match parse (clean_content m) with
          | inr a => Some a
          | inl _ => None
          end
        else None
    end.
Proof.
  intros H.
  apply loop_body_cases in H as [(ma & Hc & Hp & _ & _ & Hr & _) | H].
  - injection Hr as -> ->. simpl. rewrite Hc, Hp.
    destruct (args st); reflexivity.
  - destruct H as (st1 & Hst1 & H).
    apply extract_and_accept_cases in H as (text & added & _ & H).
    assert (Ea : args st' = args st1).
    { destruct H as [Hr | [(Hr & _) | (Hr & _)]]; injection Hr as -> ->; auto. }
    rewrite Ea.
    destruct Hst1 as [[Hc ->] | (ma & Hc & Hp & _ & ->)].
    + rewrite Hc. destruct (args st); reflexivity.
    + simpl. rewrite Hc, Hp. destruct (args st); reflexivity.
Qed.

(** *** The whole pass *)

Lemma async_for_invariant (R : Locals -> Prop) L :
  (forall st m fs fl st' fs',
      R st -> loop_body L st m fs = (Return (fl, st'), fs') -> R st') ->
  forall fuel it st fs st' fs',
    R st -> async_for fuel L it st fs = (Return st', fs') -> R st'.
Proof.
  intros Hstep. induction fuel as [| fuel IH]; intros it st fs st' fs' HR H;
    [discriminate |].
  simpl in H.
  destruct (ReplyChainIterator.__anext__ fetch_message it) as [[m | | e] it'].
  - apply bind_Return in H as ([fl st1] & fs1 & Hb & H).
    pose proof (Hstep _ _ _ _ _ _ HR Hb) as HR1.
    destruct fl.
    + eapply IH; eauto.
    + unfold ret in H. now injection H as <- <-.
  - unfold ret in H. now injection H as <- <-.
  - discriminate.
Qed.

(** The entries that a pass adds are those of the messages it accepted, a
    subsequence of the messages drawn from the iterator, the last accepted
    one in front. *)
Lemma async_for_entries L :
  forall fuel it st fs st' fs',
    async_for fuel L it st fs = (Return st', fs') ->
    exists yielded accepted,
      ReplyChainIterator.yields fetch_message it yielded
      /\ sublist (map fst accepted) yielded
      /\ messages st'
         = (rev (map (fun p => entry_of (fst p) (snd p)) accepted)
            ++ messages st)%list
      /\ Forall (fun p =>
                   snd p <> ""
                   /\ exists remaining_tokens fs1 added fs2,
                        _get_text (fst p) remaining_tokens fs1
                        = (Return (snd p, added), fs2))
                accepted.
Proof.
  induction fuel as [| fuel IH]; intros it st fs st' fs' H; [discriminate |].
  simpl in H.
  destruct (ReplyChainIterator.__anext__ fetch_message it)
    as [[m | | e] it'] eqn:Hnext.
  - apply bind_Return in H as ([fl st1] & fs1 & Hb & H).
    pose proof (loop_body_outcome _ _ _ _ _ _ _ Hb) as Hout.
    destruct fl.
    + apply IH in H as (yielded & accepted & Hy & Hsub & Hm & Hacc).
      destruct Hout as [(_ & Em & _) | [(Hfl & _) | (_ & Hout)]];
        [| discriminate |].
      * exists (m :: yielded), accepted. repeat split; auto.
        -- econstructor; eauto.
        -- now apply sublist_cons.
        -- now rewrite Hm, Em.
      * destruct Hout as (text & added & Hg & Hne & _ & _ & Em & _).
        exists (m :: yielded), ((m, text) :: accepted). repeat split.
        -- econstructor; eauto.
        -- simpl. now apply sublist_skip.
        -- rewrite Hm, Em. simpl. now rewrite <- app_assoc.
        -- constructor; [| exact Hacc]. simpl. split; [exact Hne |].
           eauto 6.
    + unfold ret in H. injection H as <- <-.
      destruct Hout as [(Hfl & _) | [(_ & Em & _) | (Hfl & _)]];
        try discriminate.
      exists [m], []. repeat split; auto.
      * econstructor; eauto. constructor.
      * simpl. apply sublist_cons. constructor.
  - unfold ret in H. injection H as <- <-.
    exists [], []. repeat split; auto; constructor.
  - discriminate.
Qed.

(** *** The token budget *)

(** The budget test: a message that is not taken as the directive, whose
    text is not empty and which the system tag does not set aside stops the
    loop when its tokens would take the count over the limit, and is
    accepted otherwise. [st1] is [st] with the command of the message
    recorded, where there is one to record. *)
Lemma loop_body_at_budget_test L st st1 m fs text added fs1 :
  ((is_command m = false /\ st1 = st)
   \/ (exists message_args,
         is_command m = true
         /\ parse (clean_content m) = inr message_args
         /\ (use_as_system_prompt
               (active_command (args st) message_args) = false
             \/ Str.truthy_opt (system_prompt st) = true)
         /\ st1 = set_args
                    (Some (active_command (args st) message_args)) st)) ->
  _get_text m (L - token_count st) fs = (Return (text, added), fs1) ->
  (args st1 <> None
   \/ user_id (author m) <> bot_user_id
   \/ exists full,
        fetch_message (channel m) (id m) = inr full
        /\ system_tagged SYSTEM_TAG full = false) ->
  text <> "" ->
  loop_body L st m fs
  = (Return (if added + token_count st >? L then (Break, st1)
             else (Continue, accept (entry_of m text) added st1)), fs1).
Proof.
  intros Hcmd Hg Htag Hne.
  assert (Hx : token_count st1 = token_count st ->
               extract_and_accept L st1 m fs
               = (Return (if added + token_count st >? L then (Break, st1)
                          else (Continue,
                                accept (entry_of m text) added st1)), fs1)).
  { intros Et. unfold ContextManager.extract_and_accept.
    rewrite Et. rewrite (bind_eq _ _ _ _ _ Hg).
    apply truthy_true in Hne.
    assert (Hskip : forall k : bool -> M (flow * Locals),
               bind match args st1 with
                    | None =>
                        if Z.eqb (user_id (author m)) bot_user_id then
                          bind (lift (fetch_message (channel m) (id m)))
                               (fun full =>
                                  ret (system_tagged SYSTEM_TAG full))
                        else ret false
                    | Some _ => ret false
                    end k fs1 = k false fs1).
    { intros k. destruct (args st1) as [a |] eqn:Ha; [reflexivity |].
      destruct (Z.eqb_spec (user_id (author m)) bot_user_id) as [Hb | Hb];
        [| reflexivity].
      destruct Htag as [Htag | [Htag | (full & Hf & Ht)]];
        [congruence | congruence |].
      rewrite Hf. unfold bind, lift, ret. now rewrite Ht. }
    rewrite Hskip. rewrite Hne. simpl. destruct (_ >? _); reflexivity. }
  unfold ContextManager.loop_body.
  destruct Hcmd as [[Hc ->] | (ma & Hc & Hp & Hno & ->)]; rewrite Hc.
  - now apply Hx.
  - rewrite Hp. simpl lift.
    rewrite (bind_eq (ret ma) _ fs ma fs eq_refl). simpl.
    assert (Hif : (negb (Str.truthy_opt (system_prompt st))
                   && use_as_system_prompt (active_command (args st) ma))%bool
                  = false).
    { destruct Hno as [-> | ->]; [apply andb_false_r | reflexivity]. }
    rewrite Hif. now apply Hx.
Qed.

(** C3. In a pass with [history_token_limit = context_length -
    max_new_tokens]: an iteration never lowers [token_count]; it leaves
    [messages] and [token_count] alone (the message is skipped), or stops the
    loop because the tokens of the extracted text would take the count over
    the limit, or accepts the message, and then the new count is within the
    limit. When an iteration stops the loop, [async for] returns at once
    with nothing accepted from this message, whatever is left in the chain.
    A message that reaches the budget test (it is not taken as the
    directive, its text is not empty, the system tag does not set it aside)
    and whose tokens would take the count over the limit does stop the loop:
    the pass returns there, with this message and all older ones left out.
    Over a whole pass the count does not decrease, and it is within the
    limit as soon as anything was accepted. *)
Theorem token_count_within_budget :
  (forall st m fs fl st' fs',
      loop_body history_token_limit st m fs = (Return (fl, st'), fs') ->
      token_count st <= token_count st'
      /\ ((fl = Continue /\ messages st' = messages st
           /\ token_count st' = token_count st)
          \/ (fl = Break /\ messages st' = messages st
              /\ token_count st' = token_count st
              /\ exists text added,
                   _get_text m (history_token_limit - token_count st) fs
                   = (Return (text, added), fs')
                   /\ added + token_count st > history_token_limit)
          \/ (fl = Continue
              /\ exists text added,
                   _get_text m (history_token_limit - token_count st) fs
                   = (Return (text, added), fs')
                   /\ added + token_count st <= history_token_limit
                   /\ messages st' = entry_of m text :: messages st
                   /\ token_count st' = token_count st + added
                   /\ token_count st' <= history_token_limit)))
  /\ (forall fuel it it' m st fs st' fs',
         ReplyChainIterator.__anext__ fetch_message it
         = (ReplyChainIterator.Yield m, it') ->
         loop_body history_token_limit st m fs = (Return (Break, st'), fs') ->
         async_for (S fuel) history_token_limit it st fs = (Return st', fs')
         /\ messages st' = messages st)
  /\ (forall fuel it it' m st st1 fs text added fs1,
         ReplyChainIterator.__anext__ fetch_message it
         = (ReplyChainIterator.Yield m, it') ->
         ((is_command m = false /\ st1 = st)
          \/ (exists message_args,
                is_command m = true
                /\ parse (clean_content m) = inr message_args
                /\ (use_as_system_prompt
                      (active_command (args st) message_args) = false
                    \/ Str.truthy_opt (system_prompt st) = true)
                /\ st1 = set_args
                           (Some (active_command (args st) message_args))
                           st)) ->
         _get_text m (history_token_limit - token_count st) fs
         = (Return (text, added), fs1) ->
         (args st1 <> None
          \/ user_id (author m) <> bot_user_id
          \/ exists full,
               fetch_message (channel m) (id m) = inr full
               /\ system_tagged SYSTEM_TAG full = false) ->
         text <> "" ->
         added + token_count st > history_token_limit ->
         loop_body history_token_limit st m fs = (Return (Break, st1), fs1)
         /\ async_for (S fuel) history_token_limit it st fs
            = (Return st1, fs1)
         /\ messages st1 = messages st
         /\ token_count st1 = token_count st)
  /\ (forall fuel it st fs st' fs',
         async_for fuel history_token_limit it st fs = (Return st', fs') ->
         token_count st <= token_count st'
         /\ ((messages st' = messages st /\ token_count st' = token_count st)
             \/ token_count st' <= history_token_limit)).
Proof.
  assert (Hstep : forall st m fs fl st' fs',
             loop_body history_token_limit st m fs = (Return (fl, st'), fs') ->
             token_count st <= token_count st'
             /\ ((messages st' = messages st
                  /\ token_count st' = token_count st)
                 \/ token_count st' <= history_token_limit)).
  { intros st m fs fl st' fs' H.
    apply loop_body_outcome in H
      as [(_ & Em & Et) | [(_ & Em & Et & _) | (_ & H)]].
    - split; [lia | auto].
    - split; [lia | auto].
    - destruct H as (text & added & _ & _ & Hpos & Hle & _ & Et).
      split; [lia | right; lia]. }
  split; [| split; [| split]].
  - intros st m fs fl st' fs' H. split; [eapply Hstep; eauto |].
    apply loop_body_outcome in H
      as [(Hfl & Em & Et) | [(Hfl & Em & Et & H) | (Hfl & H)]].
    + left. auto.
    + right; left. destruct H as (text & added & Hg & _ & Hgt).
      repeat split; auto. eauto.
    + right; right. destruct H as (text & added & Hg & _ & _ & Hle & Em & Et).
      split; [exact Hfl |]. exists text, added. repeat split; auto. lia.
  - intros fuel it it' m st fs st' fs' Hnext Hb. split.
    + simpl. rewrite Hnext. rewrite (bind_eq _ _ _ _ _ Hb). reflexivity.
    + apply loop_body_outcome in Hb
        as [(_ & Em & _) | [(_ & Em & _) | (Hfl & _)]];
        [auto | auto | discriminate].
  - intros fuel it it' m st st1 fs text added fs1 Hnext Hcmd Hg Htag Hne Hgt.
    pose proof (loop_body_at_budget_test _ _ _ _ _ _ _ _ Hcmd Hg Htag Hne)
      as Hb.
    destruct (Z.gtb_spec (added + token_count st) history_token_limit)
      as [_ | Hle]; [| lia].
    split; [exact Hb |]. split.
    + simpl. rewrite Hnext. rewrite (bind_eq _ _ _ _ _ Hb). reflexivity.
    + destruct Hcmd as [[_ ->] | (ma & _ & _ & _ & ->)]; auto.
  - intros fuel it st fs st' fs' H.
    apply (async_for_invariant
             (fun s => token_count st <= token_count s
                       /\ ((messages s = messages st
                            /\ token_count s = token_count st)
                           \/ token_count s <= history_token_limit))
             history_token_limit) in H; [exact H | | split; [lia | auto]].
    intros s m fs0 fl s' fs0' [Hmono Hs] Hb.
    apply Hstep in Hb as [Hmono' Hs']. split; [lia |].
    destruct Hs' as [[Em Et] | Hle]; [| auto].
    destruct Hs as [[Em0 Et0] | Hle0];
      [left; split; congruence | right; lia].
Qed.

(** *** Messages without text *)


(** *** The system prompt *)

(** What the loop does with the directive. It reads the directive off
    [args], the command recorded for the history, and not off
    [message_args], the command of the message at hand. When a command
    message parses, the recorded command carries "use as system prompt" and
    the system prompt captured so far is [None] or empty, the iteration
    captures the prompt of the recorded command and ends there. Through the
    rest of the pass the recorded command stays and the captured prompt stays
    that of this command. *)
Theorem system_prompt_follows_active_command :
  (forall L st m fs message_args,
      is_command m = true ->
      parse (clean_content m) = inr message_args ->
      use_as_system_prompt (active_command (args st) message_args) = true ->
      Str.truthy_opt (system_prompt st) = false ->
      exists st',
        loop_body L st m fs = (Return (Continue, st'), fs)
        /\ system_prompt st'
           = Some (prompt (active_command (args st) message_args))
        /\ args st' = Some (active_command (args st) message_args)
        /\ (args st = None ->
            system_prompt st' = Some (prompt message_args))
        /\ messages st' = messages st
        /\ token_count st' = token_count st)
  /\ (forall fuel L it st fs st' fs' a,
         async_for fuel L it st fs = (Return st', fs') ->
         args st = Some a ->
         follows_active st ->
         args st' = Some a
         /\ system_prompt st'
            = if use_as_system_prompt a then Some (prompt a) else None).
Proof.
  split.
  - intros L st m fs message_args Hc Hp Hu Hsp.
    eexists. unfold ContextManager.loop_body.
    rewrite Hc, Hp. simpl lift.
    rewrite (bind_eq (ret message_args) _ fs message_args fs eq_refl).
    simpl. rewrite Hsp, Hu. simpl. split; [reflexivity |].
    simpl. repeat split; auto.
    intros Ha. now rewrite Ha.
  - intros fuel L it st fs st' fs' a H Ha HJ.
    apply (async_for_invariant
             (fun s => args s = Some a /\ follows_active s) L) in H.
    + destruct H as [Ha' HJ']. split; [exact Ha' |].
      unfold follows_active in HJ'. now rewrite Ha' in HJ'.
    + intros s m fs0 fl s' fs0' [Hs HJs] Hb.
      apply loop_body_args in Hb as [Hkeep Hfollow]. auto.
    + auto.
Qed.

(** C1. The directive of a command message is lost when a newer command
    without the directive has been recorded: with its own parsed command
    asking for "use as system prompt" and no system prompt captured so far,
    the iteration does not capture its prompt; it goes on to extract the
    text of the message like that of any other, and leaves the captured
    prompt at [None]. So when the newest message of a chain is a command
    without the directive, the system entry of the returned list is the
    default, whatever the older commands of the chain ask for. *)
Theorem older_directive_is_ignored
    (L : Z) (st : Locals) (m : Message) (fs : FS) (a message_args : ParsedArgs) :
  is_command m = true ->
  parse (clean_content m) = inr message_args ->
  use_as_system_prompt message_args = true ->
  system_prompt st = None ->
  args st = Some a ->
  use_as_system_prompt a = false ->
  loop_body L st m fs = extract_and_accept L st m fs
  /\ (forall fl st' fs',
         loop_body L st m fs = (Return (fl, st'), fs') ->
         system_prompt st' = None /\ args st' = Some a)
  /\ (forall fuel start default fs0 msgs a' fs',
         is_command start = true ->
         parse (clean_content start) = inr a ->
         generate_chat_history_from_chat fuel start (Some default) fs0
         = (Return (msgs, a'), fs') ->
         a' = Some a
         /\ exists entries,
              msgs = {| role := "system"; content := default |} :: entries).
Proof.
  intros Hc Hp Hu Hsp Ha Hua.
  assert (Hb : loop_body L st m fs = extract_and_accept L st m fs).
  { unfold ContextManager.loop_body. rewrite Hc, Hp. simpl lift.
    rewrite (bind_eq (ret message_args) _ fs message_args fs eq_refl).
    simpl. rewrite Ha. simpl. rewrite Hua, andb_false_r.
    destruct st; simpl in *; subst; reflexivity. }
  split; [exact Hb |]. split.
  - intros fl st' fs' H. rewrite Hb in H.
    apply extract_and_accept_cases in H as (text & added & _ & H).
    destruct H as [Hr | [(Hr & _) | (Hr & _)]]; injection Hr as -> ->;
      simpl; auto.
  - intros fuel start default fs0 msgs a' fs' Hcs Hps H.
    unfold ContextManager.generate_chat_history_from_chat,
      ContextManager.compile_chat_history in H.
    apply bind_Return in H as (st2 & fs2 & Hpass & H).
    unfold ret in H. injection H as <- <- <-.
    destruct fuel as [| fuel]; [discriminate |].
    simpl in Hpass.
    apply bind_Return in Hpass as ([fl st1] & fs1 & Hfirst & Hpass).
    pose proof (loop_body_records _ _ _ _ _ _ _ Hfirst) as Hrec.
    simpl in Hrec. rewrite Hcs, Hps in Hrec.
    apply loop_body_args in Hfirst as [_ Hfollow].
    specialize (Hfollow eq_refl).
    assert (Hend : args st2 = Some a /\ follows_active st2).
    { destruct fl.
      - apply (async_for_invariant
                 (fun s => args s = Some a /\ follows_active s)) in Hpass;
          [exact Hpass | | auto].
        intros s m0 f0 fl0 s' f0' [Hs HJ] Hstep.
        apply loop_body_args in Hstep as [Hkeep HJ']. auto.
      - unfold ret in Hpass. injection Hpass as <- <-. auto. }
    destruct Hend as [Ea HJ]. unfold follows_active in HJ.
    rewrite Ea, Hua in HJ. split; [exact Ea |].
    rewrite HJ. eauto.
Qed.

(** *** The compiled list *)

(** C9, as the code has it. A list returned by [compile_chat_history] is the
    system entry followed by the entries of the accepted messages. The
    accepted messages are a subsequence of the messages drawn from the
    iterator, newest first, and their entries stand in the opposite order,
    oldest first. The entry of a message written by the bot is
    [assistant] with the extracted text, that of any other message is [user]
    with ["Message from " + name + " \n " + text], a blank on each side of
    the line break; none of them is a [system] entry. The content of the
    system entry is the prompt of the returned command when that command
    carries the directive and its prompt is not empty, and the default
    otherwise. *)
Theorem compiled_history_shape
    (fuel : nat) (message : Message) (it : ReplyChainIterator.t)
    (default : string) (fs fs' : FS)
    (msgs : list CompiledMessage) (a : option ParsedArgs) :
  compile_chat_history fuel message it (Some default) fs
  = (Return (msgs, a), fs') ->
  exists yielded accepted entries,
    ReplyChainIterator.yields fetch_message it yielded
    /\ sublist (map fst accepted) yielded
    /\ msgs
       = {| role := "system";
            content := match a with
                       | Some c =>
                           if (use_as_system_prompt c
                               && Str.truthy (prompt c))%bool
                           then prompt c else default
                       | None => default
                       end |} :: entries
    /\ Forall2
         (fun p e =>
            snd p <> ""
            /\ (exists remaining_tokens fs1 added fs2,
                   _get_text (fst p) remaining_tokens fs1
                   = (Return (snd p, added), fs2))
            /\ e = if Z.eqb (user_id (author (fst p))) bot_user_id
                   then {| role := "assistant"; content := snd p |}
                   else {| role := "user";
                           content := "Message from "
                                      ++ display_name (author (fst p))
                                      ++ " " ++ Str.nl ++ " " ++ snd p |})
         (rev accepted) entries
    /\ Forall (fun e => role e <> "system") entries.
Proof.
  unfold ContextManager.compile_chat_history. intros H.
  apply bind_Return in H as (st & fs1 & Hpass & H).
  unfold ret in H. injection H as <- <- <-.
  pose proof Hpass as HJ.
  apply (async_for_invariant follows_active) in HJ;
    [| intros s m fs0 fl s' fs0' HJs Hb;
       now apply loop_body_args in Hb as [_ Hfollow]; auto
     | reflexivity].
  apply async_for_entries in Hpass
    as (yielded & accepted & Hy & Hsub & Hm & Hacc).
  simpl in Hm. rewrite app_nil_r in Hm.
  exists yielded, accepted, (messages st).
  split; [exact Hy |]. split; [exact Hsub |]. split; [| split].
  - f_equal. f_equal. unfold follows_active in HJ. rewrite HJ.
    destruct (args st) as [c |]; [| reflexivity].
    destruct (use_as_system_prompt c); reflexivity.
  - rewrite Hm. rewrite <- map_rev.
    apply Forall_rev in Hacc.
    induction Hacc as [| p l [Hne Hg] Hl IH]; simpl; constructor; auto.
  - rewrite Hm. rewrite <- map_rev. apply Forall_map.
    apply Forall_forall. intros p _. unfold ContextManager.entry_of.
    destruct (Z.eqb _ _); simpl; discriminate.
Qed.

(** *** More on reading attachments *)

Lemma read_pages_fs pages :
  forall acc fs r fs', read_pages pages acc fs = (r, fs') -> fs' = fs.
Proof.
  induction pages as [| page pages IH]; intros acc fs r fs' H.
  - unfold read_pages, ret in H. congruence.
  - simpl in H. destruct page as [e | page_text].
    + unfold bind, lift, raise in H. congruence.
    + rewrite (bind_eq _ _ fs page_text fs eq_refl) in H. eauto.
Qed.

Lemma read_pages_returns pages :
  forall acc fs s fs',
    read_pages pages acc fs = (Return s, fs') ->
    forallb succeeded pages = true.
Proof.
  induction pages as [| page pages IH]; intros acc fs s fs' H;
    [reflexivity |].
  simpl in H. destruct page as [e | page_text];
    [unfold bind, lift, raise in H; discriminate |].
  rewrite (bind_eq _ _ fs page_text fs eq_refl) in H.
  simpl. eauto.
Qed.

Lemma read_pages_texts ps :
  forall acc fs,
    read_pages (map inr ps) acc fs
    = (Return (acc ++ Str.join (map (fun p => Str.nl ++ p) ps)), fs).
Proof.
  induction ps as [| p ps IH]; intros acc fs.
  - simpl. now rewrite append_empty_r.
  - simpl. rewrite (bind_eq _ _ fs p fs eq_refl). rewrite IH.
    now rewrite !append_assoc.
Qed.

Lemma read_pages_raises ps e rest :
  forall acc fs,
    read_pages (map inr ps ++ inl e :: rest)%list acc fs = (Raise e, fs).
Proof.
  induction ps as [| p ps IH]; intros acc fs.
  - reflexivity.
  - simpl. rewrite (bind_eq _ _ fs p fs eq_refl). apply IH.
Qed.

(** X3. [read_attachment] returns normally exactly for the attachments of
    which every step succeeds: the download, and then the decoding for a
    text, or the saving, the opening and the extraction of every page for a
    PDF. In every other case it raises. *)
Theorem read_attachment_returns_iff_readable (a : Attachment) (fs : FS) :
  (exists s fs', read_attachment a fs = (Return s, fs'))
  <-> readable decode PdfReader a = true.
Proof.
  split; [| intros H; destruct (read_attachment_readable a fs H); eauto].
  intros (s & fs' & H). revert H.
  unfold readable, ContextManager.read_attachment, kind_of.
  destruct (read a) as [e | b]; [discriminate |].
  rewrite (bind_eq _ _ fs b fs) by reflexivity.
  destruct (content_type a) as [ct |].
  - destruct (negb (Str.truthy ct) || Str.startswith ct "text/")%bool.
    + destruct (decode b); [discriminate | reflexivity].
    + destruct (Str.contains "application/pdf" ct); [| reflexivity].
      destruct (save a) as [e |]; [discriminate |].
      unfold bind at 1, write_file. unfold bind at 1, read_file.
      rewrite lookup_insert_eq.
      destruct (PdfReader b) as [e | pages]; [discriminate |].
      intros H. rewrite (bind_eq _ _ _ pages _ eq_refl) in H.
      apply bind_Return in H as (t & fs1 & Hp & _).
      eapply read_pages_returns; eauto.
  - destruct (decode b); [discriminate | reflexivity].
Qed.

(** X4. A PDF that is saved, opened and extracted page by page reads as the
    page texts, each one behind a line break, and afterwards the working
    directory holds no file under the name of the attachment, also when one
    was there before. *)
Theorem read_attachment_pdf_text
    (a : Attachment) (fs : FS) (b : bytes) (ps : list string) :
  kind_of a = Pdf ->
  read a = inr b ->
  save a = None ->
  PdfReader b = inr (map inr ps) ->
  read_attachment a fs
  = (Return (Str.join (map (fun p => Str.nl ++ p) ps)),
     delete (filename a) fs).
Proof.
  unfold kind_of, ContextManager.read_attachment.
  intros Hk Hr Hs Hp. rewrite Hr.
  rewrite (bind_eq _ _ fs b fs) by reflexivity.
  destruct (content_type a) as [ct |]; [| discriminate].
  destruct (negb (Str.truthy ct) || Str.startswith ct "text/")%bool;
    [discriminate |].
  destruct (Str.contains "application/pdf" ct); [| discriminate].
  rewrite Hs. unfold bind at 1, write_file. unfold bind at 1, read_file.
  rewrite lookup_insert_eq, Hp.
  rewrite (bind_eq (lift (inr (map inr ps))) _ _ _ _ eq_refl).
  rewrite (bind_eq _ _ _ _ _ (read_pages_texts ps "" _)).
  unfold bind, os_remove, ret. rewrite lookup_insert_eq.
  now rewrite delete_insert_eq.
Qed.

(** X5. When a PDF has been saved and then cannot be opened, or one of its
    pages cannot be extracted, the error leaves [read_attachment] and the
    saved file stays in the working directory, holding the downloaded
    bytes. *)
Theorem read_attachment_pdf_failure_leaves_file
    (a : Attachment) (fs : FS) (b : bytes) (e : exn) :
  kind_of a = Pdf ->
  read a = inr b ->
  save a = None ->
  (PdfReader b = inl e
   \/ exists ps rest,
       PdfReader b = inr (map inr ps ++ inl e :: rest)%list) ->
  read_attachment a fs = (Raise e, <[filename a := b]> fs).
Proof.
  unfold kind_of, ContextManager.read_attachment.
  intros Hk Hr Hs Hp. rewrite Hr.
  rewrite (bind_eq _ _ fs b fs) by reflexivity.
  destruct (content_type a) as [ct |]; [| discriminate].
  destruct (negb (Str.truthy ct) || Str.startswith ct "text/")%bool;
    [discriminate |].
  destruct (Str.contains "application/pdf" ct); [| discriminate].
  rewrite Hs. unfold bind at 1, write_file. unfold bind at 1, read_file.
  rewrite lookup_insert_eq.
  destruct Hp as [Hp | (ps & rest & Hp)]; rewrite Hp.
  - reflexivity.
  - rewrite (bind_eq (lift (inr (map inr ps ++ inl e :: rest)%list)) _ _ _ _
               eq_refl).
    apply bind_Raise. apply read_pages_raises.
Qed.

(** *** More on text extraction *)

Lemma length_append (s t : string) :
  String.length (s ++ t) = (String.length s + String.length t)%nat.
Proof.
  induction s as [| c s IH]; [reflexivity |].
  rewrite append_cons. simpl. now rewrite IH.
Qed.

Lemma len_append (s t : string) : Str.len (s ++ t) = Str.len s + Str.len t.
Proof. unfold Str.len. rewrite length_append. lia. Qed.

Lemma bind_fs_independent {A B} (c : M A) (k : A -> M B) :
  (forall fs1 fs2, fst (c fs1) = fst (c fs2)) ->
  (forall a fs1 fs2, fst (k a fs1) = fst (k a fs2)) ->
  forall fs1 fs2, fst (bind c k fs1) = fst (bind c k fs2).
Proof.
  intros Hc Hk fs1 fs2. unfold bind. specialize (Hc fs1 fs2).
  destruct (c fs1) as [[a1 | e1 |] f1], (c fs2) as [[a2 | e2 |] f2];
    simpl in Hc; try discriminate; try (injection Hc as ->); auto.
Qed.

Lemma write_then_read {B} (name : string) (b : bytes) (k : bytes -> M B) fs :
  bind (write_file name b) (fun _ => bind (read_file name) k) fs
  = k b (<[name := b]> fs).
Proof. unfold bind, write_file, read_file. now rewrite lookup_insert_eq. Qed.

Lemma read_pages_fs_independent pages :
  forall acc fs1 fs2,
    fst (read_pages pages acc fs1) = fst (read_pages pages acc fs2).
Proof.
  induction pages as [| page pages IH]; intros acc fs1 fs2; [reflexivity |].
  simpl. apply bind_fs_independent; [| intros; apply IH].
  intros f1 f2. destruct page; reflexivity.
Qed.

Lemma read_attachment_fs_independent a fs1 fs2 :
  fst (read_attachment a fs1) = fst (read_attachment a fs2).
Proof.
  unfold ContextManager.read_attachment.
  apply bind_fs_independent; [intros f1 f2; destruct (read a); reflexivity |].
  intros b f1 f2.
  destruct (content_type a) as [ct |];
    [| destruct (decode b); reflexivity].
  destruct (negb (Str.truthy ct) || Str.startswith ct "text/")%bool;
    [destruct (decode b); reflexivity |].
  destruct (Str.contains "application/pdf" ct); [| reflexivity].
  destruct (save a) as [e |]; [reflexivity |].
  rewrite !write_then_read.
  destruct (PdfReader b) as [e | pages]; [reflexivity |].
  rewrite !(bind_eq (lift (inr pages)) _ _ _ _ eq_refl).
  pose proof (read_pages_fs_independent pages ""
                (<[filename a := b]> f1) (<[filename a := b]> f2)) as Hp.
  unfold bind.
  destruct (read_pages pages "" (<[filename a := b]> f1))
    as [r1 g1] eqn:E1.
  destruct (read_pages pages "" (<[filename a := b]> f2))
    as [r2 g2] eqn:E2.
  apply read_pages_fs in E1 as ->. apply read_pages_fs in E2 as ->.
  simpl in Hp. subst r2.
  destruct r1 as [s | e |]; [| reflexivity | reflexivity].
  unfold os_remove. rewrite !lookup_insert_eq. reflexivity.
Qed.

Lemma read_attachments_fs_independent l :
  forall text remaining_tokens fs1 fs2,
    fst (read_attachments l text remaining_tokens fs1)
    = fst (read_attachments l text remaining_tokens fs2).
Proof.
  induction l as [| a l IH]; intros text remaining_tokens fs1 fs2;
    [reflexivity |].
  simpl. apply bind_fs_independent; [apply read_attachment_fs_independent |].
  intros c f1 f2. apply IH.
Qed.

Lemma initial_text_fs_independent m fs1 fs2 :
  fst (initial_text m fs1) = fst (initial_text m fs2).
Proof.
  unfold ContextManager.initial_text.
  destruct (if Z.eqb _ _ then _ else _); [reflexivity |].
  destruct (is_command m); [| reflexivity].
  destruct (parse _) as [e | a]; [| reflexivity].
  destruct (caught e); reflexivity.
Qed.

(** X6. What [_get_text] returns or raises does not depend on the files in
    the working directory; in particular, a second call for the same message
    and budget, made after the first, has the same outcome. *)
Theorem get_text_ignores_working_directory
    (m : Message) (remaining_tokens : Z) (fs1 fs2 : FS) :
  fst (_get_text m remaining_tokens fs1) = fst (_get_text m remaining_tokens fs2)
  /\ fst (_get_text m remaining_tokens
            (snd (_get_text m remaining_tokens fs1)))
     = fst (_get_text m remaining_tokens fs1).
Proof.
  assert (H : forall f1 f2,
             fst (_get_text m remaining_tokens f1)
             = fst (_get_text m remaining_tokens f2)).
  { intros f1 f2. unfold ContextManager._get_text.
    apply bind_fs_independent; [apply initial_text_fs_independent |].
    intros [t |] g1 g2.
    - apply bind_fs_independent; [apply read_attachments_fs_independent |].
      reflexivity.
    - destruct (attachments m) as [| a l]; [reflexivity |].
      apply bind_fs_independent;
        [apply read_attachment_fs_independent | reflexivity]. }
  split; apply H.
Qed.

Lemma augment_len text c remaining_tokens :
  Str.len text + 63 <= Str.len (augment text c remaining_tokens).
Proof.
  unfold augment.
  destruct (Str.truthy c) eqn:Ht; simpl.
  - destruct (Str.isspace c).
    + rewrite len_append. change (Str.len NOTE_UNREADABLE) with 97. lia.
    + destruct (_ >? _).
      * rewrite len_append. change (Str.len NOTE_TOO_LARGE) with 71. lia.
      * rewrite !len_append. change (Str.len NOTE_CONTENTS) with 62.
        destruct c as [| ch c]; [discriminate |].
        unfold Str.len. simpl String.length. lia.
  - rewrite len_append. change (Str.len NOTE_UNREADABLE) with 97. lia.
Qed.

Lemma read_attachments_extends l :
  forall text remaining_tokens fs text' fs',
    read_attachments l text remaining_tokens fs = (Return text', fs') ->
    exists suffix,
      text' = text ++ suffix
      /\ 63 * Z.of_nat (length l) <= Str.len suffix.
Proof.
  induction l as [| a l IH]; intros text remaining_tokens fs text' fs' H.
  - simpl in H. unfold ret in H. injection H as <- <-.
    exists "". rewrite append_empty_r. split; [reflexivity |].
    simpl. unfold Str.len. simpl. lia.
  - simpl in H. apply bind_Return in H as (c & fs1 & Hc & H).
    apply IH in H as (suffix & -> & Hlen).
    destruct (augment_appended text c remaining_tokens) as (n & _ & En).
    pose proof (augment_len text c remaining_tokens) as Hn.
    rewrite En in Hn |- *. rewrite len_append in Hn.
    exists (n ++ suffix). rewrite append_assoc. split; [reflexivity |].
    rewrite len_append. simpl length. lia.
Qed.

(** X7. The text that [_get_text] returns is the base text of the message
    followed by what the attachments add, at least 63 characters for each
    attachment, and the token count is that of the whole text. So a message
    with an attachment never has an empty text, and costs at least 21
    tokens. *)
Theorem get_text_extends_base_text
    (m : Message) (remaining_tokens : Z) (fs fs' : FS)
    (text : string) (tokens : Z) :
  _get_text m remaining_tokens fs = (Return (text, tokens), fs') ->
  exists base suffix,
    base_text m fs = (Return base, fs)
    /\ text = base ++ suffix
    /\ 63 * Z.of_nat (length (attachments m)) <= Str.len suffix
    /\ tokens = (Str.len base + Str.len suffix) / EST_CHARS_PER_TOKEN
    /\ (attachments m <> [] -> text <> "" /\ 21 <= tokens).
Proof.
  intros H. apply get_text_Return in H as (base & Hb & H).
  apply bind_Return in H as (text' & fs2 & Ha & H).
  unfold ret in H. injection H as <- <- <-.
  apply read_attachments_extends in Ha as (suffix & -> & Hlen).
  exists base, suffix. split; [exact Hb |]. split; [reflexivity |].
  split; [exact Hlen |]. split; [now rewrite len_append |].
  intros Hne.
  assert (Hl : 63 <= Str.len suffix).
  { destruct (attachments m); [congruence |]. simpl length in Hlen. lia. }
  pose proof (len_nonneg base) as Hb0.
  split.
  - intros E. apply (f_equal Str.len) in E. rewrite len_append in E.
    change (Str.len "") with 0 in E. lia.
  - rewrite len_append. unfold EST_CHARS_PER_TOKEN.
    apply Z.div_le_lower_bound; lia.
Qed.

(** *** More on the pass *)

Lemma tokens_of_nonneg accepted : 0 <= tokens_of accepted.
Proof.
  induction accepted as [| p l IH]; simpl; [lia |].
  pose proof (tokens_nonneg (snd p)). lia.
Qed.

Lemma tokens_of_app l1 l2 :
  tokens_of (l1 ++ l2) = tokens_of l1 + tokens_of l2.
Proof.
  induction l1 as [| p l IH]; simpl; [lia |]. rewrite IH. lia.
Qed.

Lemma loop_body_parses L st m fs r fs' :
  loop_body L st m fs = (Return r, fs') ->
  is_command m = true ->
  exists a, parse (clean_content m) = inr a.
Proof.
  intros H Hc.
  apply loop_body_cases in H
    as [(ma & _ & Hp & _) | (s1 & [[Hc' _] | (ma & _ & Hp & _)] & _)];
    eauto; congruence.
Qed.

(** What a pass has done when it returns: the messages it drew, those it
    accepted, the tokens it counted and the command it recorded. *)
Lemma async_for_summary L :
  forall fuel it st fs st' fs',
    async_for fuel L it st fs = (Return st', fs') ->
    exists yielded accepted,
      ReplyChainIterator.yields fetch_message it yielded
      /\ sublist (map fst accepted) yielded
      /\ messages st'
         = (rev (map (fun p => entry_of (fst p) (snd p)) accepted)
            ++ messages st)%list
      /\ token_count st' = token_count st + tokens_of accepted
      /\ (accepted <> [] -> token_count st' <= L)
      /\ args st'
         = match args st with
           | Some a => Some a
           | None => newest_command parse config yielded
           end.
Proof.
  induction fuel as [| fuel IH]; intros it st fs st' fs' H; [discriminate |].
  simpl in H.
  destruct (ReplyChainIterator.__anext__ fetch_message it)
    as [[m | | e] it'] eqn:Hnext.
  - apply bind_Return in H as ([fl st1] & fs1 & Hb & H).
    pose proof (loop_body_outcome _ _ _ _ _ _ _ Hb) as Hout.
    pose proof (loop_body_records _ _ _ _ _ _ _ Hb) as Hrec.
    assert (Hnew : forall l,
               match args st1 with
               | Some a => Some a
               | None => newest_command parse config l
               end
               = match args st with
                 | Some a => Some a
                 | None => newest_command parse config (m :: l)
                 end).
    { intros l. rewrite Hrec. unfold newest_command. simpl.
      destruct (args st); [reflexivity |].
      destruct (is_command m) eqn:Hc; [| reflexivity].
      destruct (loop_body_parses _ _ _ _ _ _ Hb Hc) as (a & ->).
      reflexivity. }
    destruct fl.
    + apply IH in H
        as (yielded & accepted & Hy & Hsub & Hm & Ht & Hle & Ha).
      rewrite Hnew in Ha.
      destruct Hout as [(_ & Em & Et) | [(Hfl & _) | (_ & Hout)]];
        [| discriminate |].
      * exists (m :: yielded), accepted. repeat split; auto.
        -- econstructor; eauto.
        -- now apply sublist_cons.
        -- now rewrite Hm, Em.
        -- lia.
      * destruct Hout as (text & added & Hg & Hne & Hpos & Hadd & Em & Et).
        pose proof (get_text_tokens _ _ _ _ _ _ Hg) as Eadd.
        exists (m :: yielded), ((m, text) :: accepted). repeat split; auto.
        -- econstructor; eauto.
        -- simpl. now apply sublist_skip.
        -- rewrite Hm, Em. simpl. now rewrite <- app_assoc.
        -- simpl. lia.
        -- intros _. destruct accepted as [| p l].
           ++ simpl in Ht. lia.
           ++ apply Hle. discriminate.
    + unfold ret in H. injection H as <- <-.
      destruct Hout as [(Hfl & _) | [(_ & Em & Et & _) | (Hfl & _)]];
        try discriminate.
      exists [m], [].
      split; [econstructor; eauto; constructor |].
      split; [simpl; apply sublist_cons; constructor |].
      split; [exact Em |].
      split; [simpl; lia |].
      split; [intros Hne; now contradiction Hne |].
      rewrite <- (Hnew []). simpl. now destruct (args st1).
  - unfold ret in H. injection H as <- <-.
    exists [], [].
    split; [constructor |]. split; [constructor |].
    split; [reflexivity |]. split; [simpl; lia |].
    split; [intros Hne; now contradiction Hne |].
    destruct (args st); reflexivity.
  - discriminate.
Qed.


Lemma yields_started_prefix l :
  forall self,
    ReplyChainIterator.yields fetch_message self l ->
    ReplyChainIterator.message_index self <> O ->
    forall older,
      ReplyChainIterator.reply_chain fetch_message
        (ReplyChainIterator.message self) older ->
      exists rest, older = (l ++ rest)%list.
Proof.
  induction l as [| m l IH]; intros self Hy Hi older Hch.
  - exists older. reflexivity.
  - inversion Hy as [| self0 m0 self' l0 Hnext Hy']; subst.
    rewrite (anext_started _ self Hi) in Hnext.
    destruct (reference (ReplyChainIterator.message self)) as [r |] eqn:Hr;
      [| discriminate].
    destruct (fetch_message _ _) as [e | m'] eqn:Hf.
    { destruct (ReplyChainIterator.caught e); discriminate. }
    injection Hnext as -> <-.
    inversion Hch as [m1 Hr1 | m1 r1 e1 Hr1 Hf1 He1 | m1 r1 m2 l1 Hr1 Hf1 Hch1];
      subst; try congruence.
    assert (r1 = r) as -> by congruence.
    assert (m2 = m) as -> by congruence.
    destruct (IH _ Hy' ltac:(simpl; lia) l1 Hch1) as (rest & ->).
    exists rest. reflexivity.
Qed.

Lemma newest_command_prefix m l rest c :
  is_command m = false ->
  newest_command parse config l = Some c ->
  newest_command parse config (m :: l ++ rest) = Some c.
Proof.
  unfold newest_command. simpl. intros -> H.
  induction l as [| x l IH]; simpl in *; [discriminate |].
  destruct (is_command x); [exact H | auto].
Qed.

(** X8. The command that [generate_chat_history_from_chat] returns for a
    reply chain is never that of an older command message where a newer one
    exists: it is the parsed command of the newest command message of the
    chain, or [None]. When the starting message is itself a command, it is
    the parsed command of the starting message. *)
Theorem compile_chat_history_returns_newest_command
    (fuel : nat) (start : Message) (older : list Message)
    (default : string) (fs fs' : FS)
    (msgs : list CompiledMessage) (a : option ParsedArgs) :
  ReplyChainIterator.reply_chain fetch_message start older ->
  generate_chat_history_from_chat fuel start (Some default) fs
  = (Return (msgs, a), fs') ->
  (is_command start = true ->
   exists c, parse (clean_content start) = inr c /\ a = Some c)
  /\ (a = None \/ a = newest_command parse config (start :: older)).
Proof.
  intros Hch H.
  unfold ContextManager.generate_chat_history_from_chat,
    ContextManager.compile_chat_history in H.
  apply bind_Return in H as (st2 & fs2 & Hpass & H).
  unfold ret in H. injection H as <- <- <-.
  destruct fuel as [| fuel]; [discriminate |].
  simpl in Hpass.
  apply bind_Return in Hpass as ([fl st1] & fs1 & Hfirst & Hpass).
  pose proof (loop_body_records _ _ _ _ _ _ _ Hfirst) as Hrec.
  simpl in Hrec.
  assert (Hrest : args st2 = args st1
                  \/ (args st1 = None
                      /\ exists yielded,
                           ReplyChainIterator.yields fetch_message
                             {| ReplyChainIterator.message := start;
                                ReplyChainIterator.message_index := 1 |}
                             yielded
                           /\ args st2 = newest_command parse config yielded)).
  { destruct fl.
    - apply async_for_summary in Hpass
        as (yielded & accepted & Hy & _ & _ & _ & _ & Ha).
      destruct (args st1) as [c |]; [left; exact Ha |].
      right. split; [reflexivity |]. exists yielded. auto.
    - unfold ret in Hpass. injection Hpass as <- <-. now left. }
  destruct (is_command start) eqn:Hc.
  - destruct (loop_body_parses _ _ _ _ _ _ Hfirst Hc) as (c & Hp).
    rewrite Hp in Hrec.
    assert (Ea : args st2 = Some c).
    { destruct Hrest as [-> | (Hn & _)]; congruence. }
    split; [intros _; eauto |].
    right. rewrite Ea. unfold newest_command. simpl. now rewrite Hc, Hp.
  - split; [discriminate |].
    destruct Hrest as [-> | (_ & yielded & Hy & ->)]; [now left |].
    destruct (newest_command parse config yielded) as [c |] eqn:En;
      [| now left].
    right.
    destruct (yields_started_prefix _ _ Hy ltac:(simpl; lia) older Hch)
      as (rest & ->).
    symmetry. now apply newest_command_prefix.
Qed.

(** X9. The budget is kept on the extracted texts: in a returned list with
    at least one entry behind the system entry, the tokens of the default
    system prompt plus those of the texts of the accepted messages are
    within [context_length - max_new_tokens]. The tokens of the default
    prompt are counted also when another prompt takes its place, and the
    "Message from" line of a user entry is not counted. *)
Theorem compile_chat_history_budget
    (fuel : nat) (message : Message) (it : ReplyChainIterator.t)
    (default : string) (fs fs' : FS)
    (msgs : list CompiledMessage) (a : option ParsedArgs) :
  compile_chat_history fuel message it (Some default) fs
  = (Return (msgs, a), fs') ->
  exists accepted,
    tail msgs = rev (map (fun p => entry_of (fst p) (snd p)) accepted)
    /\ (accepted <> [] ->
        Str.len default / EST_CHARS_PER_TOKEN + tokens_of accepted
        <= history_token_limit).
Proof.
  unfold ContextManager.compile_chat_history. intros H.
  apply bind_Return in H as (st & fs1 & Hpass & H).
  unfold ret in H. injection H as <- <- <-.
  apply async_for_summary in Hpass
    as (yielded & accepted & _ & _ & Hm & Ht & Hle & _).
  exists accepted. simpl in *. rewrite app_nil_r in Hm.
  split; [exact Hm |]. intros Hne. specialize (Hle Hne). lia.
Qed.

(** X10. A default system prompt whose own tokens exceed the limit leaves no
    room for history: a returned list is then the system entry alone. *)
Theorem compile_chat_history_oversized_default
    (fuel : nat) (message : Message) (it : ReplyChainIterator.t)
    (default : string) (fs fs' : FS)
    (msgs : list CompiledMessage) (a : option ParsedArgs) :
  Str.len default / EST_CHARS_PER_TOKEN > history_token_limit ->
  compile_chat_history fuel message it (Some default) fs
  = (Return (msgs, a), fs') ->
  exists sys, msgs = [{| role := "system"; content := sys |}].
Proof.
  unfold ContextManager.compile_chat_history. intros Hbig H.
  apply bind_Return in H as (st & fs1 & Hpass & H).
  unfold ret in H. injection H as <- <- <-.
  apply async_for_summary in Hpass
    as (yielded & accepted & _ & _ & Hm & Ht & Hle & _).
  simpl in *. rewrite app_nil_r in Hm.
  destruct accepted as [| p l].
  - rewrite Hm. simpl. eauto.
  - exfalso. assert (Hne : p :: l <> []) by discriminate.
    specialize (Hle Hne). pose proof (tokens_of_nonneg (p :: l)). lia.
Qed.

(** X11. A message written by the bot, without the command prefix, whose
    first embed on a second fetch carries the system tag is passed over as
    long as no command has been recorded. Once a command has been recorded
    the message is not fetched again and the tag plays no part: with a
    non-empty text that fits, it is accepted as an [assistant] entry. *)
Theorem system_tag_filters_until_a_command
    (L : Z) (st : Locals) (m : Message) (fs fs1 : FS)
    (text : string) (added : Z) :
  is_command m = false ->
  user_id (author m) = bot_user_id ->
  _get_text m (L - token_count st) fs = (Return (text, added), fs1) ->
  (forall full,
      args st = None ->
      fetch_message (channel m) (id m) = inr full ->
      system_tagged SYSTEM_TAG full = true ->
      loop_body L st m fs = (Return (Continue, st), fs1))
  /\ (forall c,
         args st = Some c ->
         text <> "" ->
         added + token_count st <= L ->
         loop_body L st m fs
         = (Return (Continue,
                    accept {| role := "assistant"; content := text |}
                           added st), fs1)).
Proof.
  intros Hc Hbot Hg.
  unfold ContextManager.loop_body, ContextManager.extract_and_accept.
  rewrite Hc. rewrite (bind_eq _ _ _ _ _ Hg). split.
  - intros full Ha Hf Htag. rewrite Ha, Hbot, Z.eqb_refl, Hf.
    unfold bind, lift, ret. now rewrite Htag.
  - intros c Ha Hne Hle. rewrite Ha.
    unfold bind, ret. apply truthy_true in Hne. rewrite Hne. simpl.
    destruct (Z.gtb_spec (added + token_count st) L) as [Hgt | _]; [lia |].
    unfold ContextManager.entry_of. rewrite Hbot, Z.eqb_refl. reflexivity.
Qed.

(** *** Chains of plain messages *)

Lemma get_text_plain m remaining_tokens fs :
  plain config bot_user_id m = true ->
  _get_text m remaining_tokens fs
  = (Return (clean_content m,
             Str.len (clean_content m) / EST_CHARS_PER_TOKEN), fs).
Proof.
  unfold plain. intros H.
  apply andb_true_iff in H as [H Hatt]. apply andb_true_iff in H as [Hc Hb].
  apply negb_true_iff in Hc, Hb.
  unfold ContextManager._get_text, ContextManager.initial_text.
  rewrite Hb, Hc.
  destruct (attachments m); [reflexivity | discriminate].
Qed.

Lemma loop_body_plain L st m fs :
  plain config bot_user_id m = true ->
  args st = None ->
  loop_body L st m fs
  = (Return
       (if negb (Str.truthy (clean_content m)) then (Continue, st)
        else if Str.len (clean_content m) / EST_CHARS_PER_TOKEN
                + token_count st >? L
        then (Break, st)
        else (Continue,
              accept (entry_of m (clean_content m))
                     (Str.len (clean_content m) / EST_CHARS_PER_TOKEN) st)),
     fs).
Proof.
  intros Hp Ha. pose proof Hp as Hp'. unfold plain in Hp'.
  apply andb_true_iff in Hp' as [Hp' _].
  apply andb_true_iff in Hp' as [Hc Hb].
  apply negb_true_iff in Hc, Hb.
  unfold ContextManager.loop_body, ContextManager.extract_and_accept.
  rewrite Hc. rewrite (bind_eq _ _ _ _ _ (get_text_plain m _ fs Hp)).
  rewrite Ha, Hb. unfold bind, ret.
  destruct (negb (Str.truthy (clean_content m))); [reflexivity |].
  destruct (_ >? _); reflexivity.
Qed.

Lemma async_for_plain_step L fuel it it' m rest st fs :
  ReplyChainIterator.__anext__ fetch_message it
  = (ReplyChainIterator.Yield m, it') ->
  plain config bot_user_id m = true ->
  args st = None ->
  (forall st1,
      args st1 = None ->
      exists tc,
        async_for fuel L it' st1 fs
        = (Return {| token_count := tc; args := None;
                     system_prompt := system_prompt st1;
                     messages :=
                       (rev (map (fun m => entry_of m (clean_content m))
                                 (fit L (token_count st1) rest))
                        ++ messages st1)%list |}, fs)) ->
  exists tc,
    async_for (S fuel) L it st fs
    = (Return {| token_count := tc; args := None;
                 system_prompt := system_prompt st;
                 messages :=
                   (rev (map (fun m => entry_of m (clean_content m))
                             (fit L (token_count st) (m :: rest)))
                    ++ messages st)%list |}, fs).
Proof.
  intros Hnext Hp Ha Hrest. simpl async_for. rewrite Hnext.
  rewrite (bind_eq _ _ _ _ _ (loop_body_plain L st m fs Hp Ha)).
  simpl fit.
  destruct (negb (Str.truthy (clean_content m))).
  - apply (Hrest st Ha).
  - destruct (_ >? _).
    + exists (token_count st). unfold ret. simpl.
      destruct st; simpl in *; subst; reflexivity.
    + destruct (Hrest (accept (entry_of m (clean_content m))
                          (Str.len (clean_content m) / EST_CHARS_PER_TOKEN)
                          st) Ha) as (tc & Hpass).
      exists tc. rewrite Hpass. simpl. rewrite <- app_assoc. reflexivity.
Qed.

Lemma async_for_plain_chain L m older :
  ReplyChainIterator.reply_chain fetch_message m older ->
  forall i fuel st fs,
    i <> O ->
    forallb (plain config bot_user_id) older = true ->
    args st = None ->
    (length older < fuel)%nat ->
    exists tc,
      async_for fuel L
        {| ReplyChainIterator.message := m;
           ReplyChainIterator.message_index := i |} st fs
      = (Return {| token_count := tc; args := None;
                   system_prompt := system_prompt st;
                   messages :=
                     (rev (map (fun m => entry_of m (clean_content m))
                               (fit L (token_count st) older))
                      ++ messages st)%list |}, fs).
Proof.
  induction 1 as [m Hr | m r e Hr Hf Hc | m r m' l Hr Hf Hch IH];
    intros i fuel st fs Hi Hp Ha Hl;
    (destruct fuel as [| fuel]; [simpl in Hl; lia |]).
  - exists (token_count st). simpl.
    rewrite anext_started by exact Hi. simpl. rewrite Hr.
    unfold ret. destruct st; simpl in *; subst; reflexivity.
  - exists (token_count st). simpl.
    apply caught_spec in Hc.
    rewrite anext_started by exact Hi. simpl. rewrite Hr, Hf, Hc.
    unfold ret. destruct st; simpl in *; subst; reflexivity.
  - simpl in Hp. apply andb_true_iff in Hp as [Hpm Hpl].
    eapply async_for_plain_step; eauto.
    + rewrite anext_started by exact Hi. simpl. rewrite Hr, Hf. reflexivity.
    + intros st1 Ha1. apply IH; auto; simpl in *; lia.
Qed.

(** X12. On a reply chain of plain messages (written by users, without the
    command prefix, without attachments), with fuel for the whole chain,
    [generate_chat_history_from_chat] returns the default system prompt
    followed by the entries of the messages that fit, oldest first, and no
    command. The messages that fit are chosen from the newest on: an empty
    message is passed over, and the first message whose tokens would take
    the count over the limit ends the selection, however small the messages
    behind it are. The working directory is left as it was. *)
Theorem generate_chat_history_plain_chain
    (fuel : nat) (start : Message) (older : list Message)
    (default : string) (fs : FS) :
  ReplyChainIterator.reply_chain fetch_message start older ->
  forallb (plain config bot_user_id) (start :: older) = true ->
  (length (start :: older) < fuel)%nat ->
  generate_chat_history_from_chat fuel start (Some default) fs
  = (Return
       ({| role := "system"; content := default |}
        :: rev (map (fun m => entry_of m (clean_content m))
                    (fit history_token_limit
                         (Str.len default / EST_CHARS_PER_TOKEN)
                         (start :: older))),
        None), fs).
Proof.
  intros Hch Hp Hl.
  destruct fuel as [| fuel]; [simpl in Hl; lia |].
  simpl in Hp. apply andb_true_iff in Hp as [Hps Hpo].
  unfold ContextManager.generate_chat_history_from_chat,
    ContextManager.compile_chat_history.
  set (st0 := {| token_count := 0 + Str.len default / EST_CHARS_PER_TOKEN;
                 args := None; system_prompt := None; messages := [] |}).
  destruct (async_for_plain_step history_token_limit fuel
              (ReplyChainIterator.init start)
              {| ReplyChainIterator.message := start;
                 ReplyChainIterator.message_index := 1 |}
              start older st0 fs eq_refl Hps eq_refl) as (tc & Hpass).
  - intros st1 Ha1. apply async_for_plain_chain; auto. simpl in Hl. lia.
  - rewrite (bind_eq _ _ _ _ _ Hpass). unfold ret. simpl.
    rewrite app_nil_r. reflexivity.
Qed.

(** *** Passes that end *)

Lemma bind_no_fuel {A B} (c : M A) (k : A -> M B) :
  (forall fs, fst (c fs) <> OutOfFuel) ->
  (forall a fs, fst (k a fs) <> OutOfFuel) ->
  forall fs, fst (bind c k fs) <> OutOfFuel.
Proof.
  intros Hc Hk fs. unfold bind. specialize (Hc fs).
  destruct (c fs) as [[a | e |] fs1]; simpl in *;
    [apply Hk | discriminate | congruence].
Qed.

Lemma lift_no_fuel {A} (r : exn + A) fs : fst (lift r fs) <> OutOfFuel.
Proof. destruct r; discriminate. Qed.

Lemma read_pages_no_fuel pages :
  forall acc fs, fst (read_pages pages acc fs) <> OutOfFuel.
Proof.
  induction pages as [| page pages IH]; intros acc fs; [discriminate |].
  simpl. apply bind_no_fuel; [apply lift_no_fuel | intros; apply IH].
Qed.

Lemma read_attachment_no_fuel a fs :
  fst (read_attachment a fs) <> OutOfFuel.
Proof.
  unfold ContextManager.read_attachment.
  apply bind_no_fuel; [apply lift_no_fuel |]. intros b fs1.
  destruct (content_type a) as [ct |]; [| apply lift_no_fuel].
  destruct (negb _ || _)%bool; [apply lift_no_fuel |].
  destruct (Str.contains _ _); [| discriminate].
  apply bind_no_fuel.
  { intros f. destruct (save a); discriminate. }
  intros _ f. apply bind_no_fuel.
  { intros g. unfold read_file. destruct (g !! filename a); discriminate. }
  intros file g. apply bind_no_fuel; [apply lift_no_fuel |].
  intros pages h. apply bind_no_fuel; [apply read_pages_no_fuel |].
  intros s h'. apply bind_no_fuel; [| discriminate].
  intros h''. unfold os_remove. destruct (h'' !! filename a); discriminate.
Qed.

Lemma read_attachments_no_fuel l :
  forall text remaining_tokens fs,
    fst (read_attachments l text remaining_tokens fs) <> OutOfFuel.
Proof.
  induction l as [| a l IH]; intros text remaining_tokens fs;
    [discriminate |].
  simpl. apply bind_no_fuel; [apply read_attachment_no_fuel |].
  intros c f. apply IH.
Qed.

Lemma get_text_no_fuel m remaining_tokens fs :
  fst (_get_text m remaining_tokens fs) <> OutOfFuel.
Proof.
  unfold ContextManager._get_text. apply bind_no_fuel.
  - intros f. unfold ContextManager.initial_text.
    destruct (if Z.eqb _ _ then _ else _); [discriminate |].
    destruct (is_command m); [| discriminate].
    destruct (parse _) as [e | a]; [| discriminate].
    destruct (caught e); discriminate.
  - intros [t |] f.
    + apply bind_no_fuel; [apply read_attachments_no_fuel |]. discriminate.
    + destruct (attachments m) as [| a l]; [discriminate |].
      apply bind_no_fuel; [apply read_attachment_no_fuel | discriminate].
Qed.

Lemma extract_and_accept_no_fuel L st m fs :
  fst (extract_and_accept L st m fs) <> OutOfFuel.
Proof.
  unfold ContextManager.extract_and_accept.
  apply bind_no_fuel; [apply get_text_no_fuel |].
  intros [text added] f. apply bind_no_fuel.
  - intros g. destruct (args st); [discriminate |].
    destruct (Z.eqb _ _); [| discriminate].
    apply bind_no_fuel; [apply lift_no_fuel | discriminate].
  - intros skip g. destruct skip; [discriminate |].
    destruct (negb _); [discriminate |].
    destruct (_ >? _); discriminate.
Qed.

Lemma loop_body_no_fuel L st m fs :
  fst (loop_body L st m fs) <> OutOfFuel.
Proof.
  unfold ContextManager.loop_body.
  destruct (is_command m); [| apply extract_and_accept_no_fuel].
  apply bind_no_fuel; [apply lift_no_fuel |].
  intros ma f. destruct (negb _ && _)%bool;
    [discriminate | apply extract_and_accept_no_fuel].
Qed.

Lemma async_for_started_terminates L fuel :
  (forall ch i m, fetch_message ch i = inr m -> id m = i) ->
  (forall ch i m r,
      fetch_message ch i = inr m -> reference m = Some r ->
      0 <= message_id r < i) ->
  forall it st fs,
    ReplyChainIterator.message_index it <> O ->
    (forall r, reference (ReplyChainIterator.message it) = Some r ->
               0 <= message_id r < id (ReplyChainIterator.message it)) ->
    (Z.to_nat (id (ReplyChainIterator.message it)) < fuel)%nat ->
    fst (async_for fuel L it st fs) <> OutOfFuel.
Proof.
  intros Hid Hold. induction fuel as [| fuel IH]; intros it st fs Hi Href Hf;
    [lia |].
  simpl. rewrite (anext_started _ it Hi).
  destruct (reference (ReplyChainIterator.message it)) as [r |] eqn:Hr;
    [| discriminate].
  destruct (fetch_message _ _) as [e | m] eqn:Hfetch.
  - destruct (ReplyChainIterator.caught e); discriminate.
  - pose proof (Hid _ _ _ Hfetch) as Em.
    pose proof (Href r eq_refl) as Hlt.
    apply bind_no_fuel; [apply loop_body_no_fuel |].
    intros [fl st1] f. destruct fl; [| discriminate].
    apply IH; simpl.
    + lia.
    + intros r' Hr'. rewrite Em. eapply Hold; eauto.
    + lia.
Qed.

(** X13. The compilation ends on a platform where a reply refers to a message
    with a smaller, non-negative id and a fetch returns the message that was
    asked for: with more fuel than the id of the starting message plus one,
    [generate_chat_history_from_chat] returns or raises, and does not run
    out of fuel. *)
Theorem generate_chat_history_terminates
    (fuel : nat) (start : Message) (default : option string) (fs : FS) :
  (forall ch i m, fetch_message ch i = inr m -> id m = i) ->
  (forall ch i m r,
      fetch_message ch i = inr m -> reference m = Some r ->
      0 <= message_id r < i) ->
  (forall r, reference start = Some r -> 0 <= message_id r < id start) ->
  (Z.to_nat (id start) + 1 < fuel)%nat ->
  fst (generate_chat_history_from_chat fuel start default fs) <> OutOfFuel.
Proof.
  intros Hid Hold Hstart Hfuel.
  unfold ContextManager.generate_chat_history_from_chat,
    ContextManager.compile_chat_history.
  destruct default as [default |]; [| discriminate].
  apply bind_no_fuel; [| discriminate].
  intros f. destruct fuel as [| fuel]; [lia |].
  simpl. apply bind_no_fuel; [apply loop_body_no_fuel |].
  intros [fl st1] g. destruct fl; [| discriminate].
  apply async_for_started_terminates; simpl; auto; lia.
Qed.

(** *** The second fetch, and the command prefix *)

(** X14. The second fetch of a message written by the bot is not guarded:
    while no command has been recorded, a failure of that fetch leaves the
    loop as an exception, also when it is one of the failures on which the
    iterator would have ended the chain quietly. *)
Theorem refetch_failure_surfaces
    (L : Z) (st : Locals) (m : Message) (fs fs1 : FS)
    (r : string * Z) (e : exn) :
  is_command m = false ->
  user_id (author m) = bot_user_id ->
  args st = None ->
  _get_text m (L - token_count st) fs = (Return r, fs1) ->
  fetch_message (channel m) (id m) = inl e ->
  loop_body L st m fs = (Raise e, fs1)
  /\ forall fuel it it',
       ReplyChainIterator.__anext__ fetch_message it
       = (ReplyChainIterator.Yield m, it') ->
       async_for (S fuel) L it st fs = (Raise e, fs1).
Proof.
  intros Hc Hbot Ha Hg Hf.
  assert (Hb : loop_body L st m fs = (Raise e, fs1)).
  { unfold ContextManager.loop_body, ContextManager.extract_and_accept.
    rewrite Hc. rewrite (bind_eq _ _ _ _ _ Hg). destruct r as [text added].
    rewrite Ha, Hbot, Z.eqb_refl, Hf. reflexivity. }
  split; [exact Hb |].
  intros fuel it it' Hnext. simpl. rewrite Hnext.
  now apply bind_Raise.
Qed.

Lemma lower_append (s t : string) :
  Str.lower (s ++ t) = Str.lower s ++ Str.lower t.
Proof.
  induction s as [| c s IH]; [reflexivity |].
  rewrite append_cons. simpl. now rewrite IH.
Qed.

Lemma prefix_append (p r : string) : String.prefix p (p ++ r) = true.
Proof.
  induction p as [| c p IH].
  - now destruct r.
  - rewrite append_cons. simpl.
    destruct (ascii_dec c c); [exact IH | congruence].
Qed.

(** X15. The command prefix is matched without regard to case: a message
    whose text begins with the prefix in any mix of upper and lower case is
    taken for a command. *)
Theorem command_prefix_ignores_case (m : Message) (p rest : string) :
  clean_content m = p ++ rest ->
  Str.lower p = Str.lower (command_start_str config) ->
  is_command m = true.
Proof.
  intros Hm Hp. unfold ContextManager.is_command, Str.startswith.
  rewrite Hm, lower_append, <- Hp. apply prefix_append.
Qed.

End ContextManagerFacts.

(** * The properties at work in the small world *)

Section Runs.

Import ContextManager.

(** The chain C, B, A is drained in that order, and the reply to a deleted
    message is drained alone: the fetch of its reference is answered with
    [NotFound], and the iteration ends there. *)
Lemma reply_chain_iterator_yields_witness :
  ReplyChainIterator.drain Demo.fetch_message 5
    (ReplyChainIterator.init Demo.msgC)
  = Return [Demo.msgC; Demo.msgB; Demo.msgA]
  /\ Demo.fetch_message (channel Demo.msgOrphan) 99 = inl NotFound
  /\ ReplyChainIterator.drain Demo.fetch_message 5
       (ReplyChainIterator.init Demo.msgOrphan)
     = Return [Demo.msgOrphan].
Proof.
  split; [| split; [reflexivity |]].
  - apply (reply_chain_iterator_yields Demo.fetch_message 5 Demo.msgC).
    exists [Demo.msgB; Demo.msgA]. split; [reflexivity |].
    split; [| simpl; lia].
    eapply ReplyChainIterator.chain_fetched; [reflexivity | reflexivity |].
    eapply ReplyChainIterator.chain_fetched; [reflexivity | reflexivity |].
    apply ReplyChainIterator.chain_no_reference. reflexivity.
  - apply (reply_chain_iterator_yields Demo.fetch_message 5 Demo.msgOrphan).
    exists []. split; [reflexivity |]. split; [| simpl; lia].
    eapply ReplyChainIterator.chain_fetch_failed;
      [reflexivity | reflexivity | now left].
Defined.


(** A rejected command line reaches the caller as [CommandError]. *)
Lemma compile_chat_history_surfaces_parse_error_witness :
  is_command Demo.config Demo.cmdBad = true
  /\ Demo.parse (clean_content Demo.cmdBad) = inl CommandError
  /\ Demo.compile 1 Demo.cmdBad (Some "S") ∅ = (Raise CommandError, ∅).
Proof.
  split; [reflexivity |]. split; [reflexivity |].
  apply (compile_chat_history_surfaces_parse_error
           Demo.parse Demo.fetch_message Demo.decode Demo.PdfReader
           Demo.SYSTEM_TAG Demo.config Demo.bot_user_id
           0 Demo.cmdBad "S" ∅ CommandError);
    reflexivity.
Defined.

(** With room for two tokens, a message of three stops the pass at once;
    with room for ninety, the chain C, B, A is accepted whole. *)
Lemma token_count_within_budget_witness :
  (Demo.get_text Demo.msgLong (2 - token_count Demo.st0) ∅
   = (Return ("0123456789", 3), ∅)
   /\ 3 + token_count Demo.st0 > 2
   /\ Demo.body Demo.tight 2 Demo.st0 Demo.msgLong ∅
      = (Return (Break, Demo.st0), ∅)
   /\ Demo.pass Demo.tight 1 2 (ReplyChainIterator.init Demo.msgLong)
        Demo.st0 ∅
      = (Return Demo.st0, ∅)
   /\ messages Demo.st0 = messages Demo.st0
   /\ token_count Demo.st0 = token_count Demo.st0)
  /\ (forall st' fs',
         Demo.pass Demo.config 5 90 (ReplyChainIterator.init Demo.msgC)
           Demo.st0 ∅ = (Return st', fs') ->
         token_count Demo.st0 <= token_count st'
         /\ ((messages st' = messages Demo.st0
              /\ token_count st' = token_count Demo.st0)
             \/ token_count st' <= 90)).
Proof.
  pose proof (token_count_within_budget
                Demo.parse Demo.fetch_message Demo.decode Demo.PdfReader
                Demo.SYSTEM_TAG Demo.tight Demo.bot_user_id)
    as (_ & _ & Hhalt & _).
  pose proof (token_count_within_budget
                Demo.parse Demo.fetch_message Demo.decode Demo.PdfReader
                Demo.SYSTEM_TAG Demo.config Demo.bot_user_id)
    as (_ & _ & _ & Hpass).
  split.
  - split; [reflexivity |]. split; [reflexivity |].
    apply (Hhalt 0%nat (ReplyChainIterator.init Demo.msgLong)
             {| ReplyChainIterator.message := Demo.msgLong;
                ReplyChainIterator.message_index := 1 |}
             Demo.msgLong Demo.st0 Demo.st0 ∅ "0123456789" 3 ∅).
    + reflexivity.
    + left. split; reflexivity.
    + reflexivity.
    + right; left. discriminate.
    + discriminate.
    + reflexivity.
  - intros st' fs' H. exact (Hpass _ _ _ _ _ _ H).
Defined.



(** Four readable attachments: the text is returned and the PDF is gone
    from the working directory. *)
Lemma get_text_returns_when_readable_witness :
  (forall s e, Demo.parse s = inl e -> caught e = true)
  /\ (forall embed,
         user_id (author Demo.msgFiles) = Demo.bot_user_id ->
         head (embeds Demo.msgFiles) = Some embed ->
         description embed <> None)
  /\ forallb (readable Demo.decode Demo.PdfReader)
             (attachments Demo.msgFiles) = true
  /\ (exists text fs',
         Demo.get_text Demo.msgFiles 5 ∅
         = (Return (text, Str.len text / EST_CHARS_PER_TOKEN), fs')
         /\ (forall a, In a (attachments Demo.msgFiles) -> kind_of a = Pdf ->
                       fs' !! filename a = None)).
Proof.
  assert (Hp : forall s e, Demo.parse s = inl e -> caught e = true).
  { intros s e. unfold Demo.parse.
    repeat (destruct (String.eqb s _); [discriminate |]).
    intros [= <-]. reflexivity. }
  assert (Hd : forall embed,
             user_id (author Demo.msgFiles) = Demo.bot_user_id ->
             head (embeds Demo.msgFiles) = Some embed ->
             description embed <> None).
  { intros embed Hb. discriminate Hb. }
  split; [exact Hp |]. split; [exact Hd |]. split; [reflexivity |].
  exact (proj1 (get_text_returns_when_readable
                  Demo.parse Demo.decode Demo.PdfReader Demo.config
                  Demo.bot_user_id Demo.msgFiles 5 ∅ Hp Hd eq_refl)).
Defined.

(** C5 fails on a text attachment that does not decode, whose error leaves
    [_get_text], and on a PDF that the PDF library rejects, whose saved file
    stays in the working directory. *)
Lemma attachment_failure_escapes :
  ~ (exists r fs', Demo.get_text Demo.msgBadText 50 ∅ = (Return r, fs'))
  /\ Demo.get_text Demo.msgBadText 50 ∅ = (Raise UnicodeDecodeError, ∅)
  /\ fst (read_attachment Demo.decode Demo.PdfReader Demo.bad_pdf ∅)
     = Raise PdfReadError
  /\ snd (read_attachment Demo.decode Demo.PdfReader Demo.bad_pdf ∅)
       !! "doc.pdf"
     = Some (list_byte_of_string "garbage").
Proof.
  split; [| split; [| split]]; try reflexivity.
  intros (r & fs' & H). discriminate H.
Qed.



(** The chain C, B, A with the default prompt "S". *)
Lemma compiled_history_shape_witness :
  Demo.compile 5 Demo.msgC (Some "S") ∅
  = (Return ([Demo.system_says "S"; Demo.user_says "A"; Demo.user_says "B";
              Demo.user_says "C"], None), ∅)
  /\ exists yielded accepted entries,
       ReplyChainIterator.yields Demo.fetch_message
         (ReplyChainIterator.init Demo.msgC) yielded
       /\ sublist (map fst accepted) yielded
       /\ [Demo.system_says "S"; Demo.user_says "A"; Demo.user_says "B";
           Demo.user_says "C"]
          = {| role := "system"; content := "S" |} :: entries
       /\ Forall2
            (fun p e =>
               snd p <> ""
               /\ (exists remaining_tokens fs1 added fs2,
                      Demo.get_text (fst p) remaining_tokens fs1
                      = (Return (snd p, added), fs2))
               /\ e = if Z.eqb (user_id (author (fst p))) Demo.bot_user_id
                      then {| role := "assistant"; content := snd p |}
                      else {| role := "user";
                              content := "Message from "
                                         ++ display_name (author (fst p))
                                         ++ " " ++ Str.nl ++ " " ++ snd p |})
            (rev accepted) entries
       /\ Forall (fun e => role e <> "system") entries.
Proof.
  split; [reflexivity |].
  exact (compiled_history_shape
           Demo.parse Demo.fetch_message Demo.decode Demo.PdfReader
           Demo.SYSTEM_TAG Demo.config Demo.bot_user_id
           5 Demo.msgC (ReplyChainIterator.init Demo.msgC) "S" ∅ ∅
           [Demo.system_says "S"; Demo.user_says "A"; Demo.user_says "B";
            Demo.user_says "C"] None eq_refl).
Defined.

(** C9 fails on a single message "A" from bob: the content of its entry has
    a blank before and after the line break. *)
Lemma user_entry_has_blanks :
  Demo.compile 5 Demo.msgA (Some "S") ∅
  = (Return ([Demo.system_says "S";
              {| role := "user";
                 content := "Message from bob " ++ Str.nl ++ " A" |}],
             None), ∅)
  /\ "Message from bob " ++ Str.nl ++ " A"
     <> "Message from " ++ display_name (author Demo.msgA) ++ Str.nl ++ "A".
Proof.
  split; [reflexivity |]. discriminate.
Qed.

(** A command with the directive is captured when it is the newest command;
    the older directive behind it is then left alone. *)
Lemma system_prompt_follows_active_command_witness :
  (is_command Demo.config Demo.cmdKind = true
   /\ Demo.parse (clean_content Demo.cmdKind)
      = inr {| prompt := "Be kind"; use_as_system_prompt := true |}
   /\ exists st',
        Demo.body Demo.config 90 Demo.st0 Demo.cmdKind ∅
        = (Return (Continue, st'), ∅)
        /\ system_prompt st' = Some "Be kind"
        /\ args st'
           = Some {| prompt := "Be kind"; use_as_system_prompt := true |}
        /\ (args Demo.st0 = None -> system_prompt st' = Some "Be kind")
        /\ messages st' = messages Demo.st0
        /\ token_count st' = token_count Demo.st0)
  /\ (forall st' fs',
         Demo.pass Demo.config 5 90
           {| ReplyChainIterator.message := Demo.cmdKind;
              ReplyChainIterator.message_index := 1 |}
           {| token_count := 0;
              args := Some {| prompt := "Be kind";
                              use_as_system_prompt := true |};
              system_prompt := Some "Be kind";
              messages := [] |} ∅ = (Return st', fs') ->
         args st'
         = Some {| prompt := "Be kind"; use_as_system_prompt := true |}
         /\ system_prompt st' = Some "Be kind").
Proof.
  pose proof (system_prompt_follows_active_command
                Demo.parse Demo.fetch_message Demo.decode Demo.PdfReader
                Demo.SYSTEM_TAG Demo.config Demo.bot_user_id)
    as (Hstep & Hpass).
  split.
  - split; [reflexivity |]. split; [reflexivity |].
    apply (Hstep 90 Demo.st0 Demo.cmdKind ∅
             {| prompt := "Be kind"; use_as_system_prompt := true |});
      reflexivity.
  - intros st' fs' H.
    apply (Hpass _ _ _ _ _ _ _
             {| prompt := "Be kind"; use_as_system_prompt := true |} H);
      reflexivity.
Defined.

(** "Be terse" with the directive, answered by "hi" without it: the older
    directive is read off the command of "hi", the text extracted is that of
    "Be terse", and the system entry is the default. *)
Lemma older_directive_is_ignored_witness :
  (is_command Demo.config Demo.cmdTerse = true
   /\ Demo.parse (clean_content Demo.cmdTerse)
      = inr {| prompt := "Be terse"; use_as_system_prompt := true |}
   /\ system_prompt Demo.stHi = None
   /\ args Demo.stHi
      = Some {| prompt := "hi"; use_as_system_prompt := false |})
  /\ Demo.body Demo.config 90 Demo.stHi Demo.cmdTerse ∅
     = extract_and_accept Demo.parse Demo.fetch_message Demo.decode
         Demo.PdfReader Demo.SYSTEM_TAG Demo.config Demo.bot_user_id
         90 Demo.stHi Demo.cmdTerse ∅
  /\ (Demo.compile 5 Demo.cmdHi (Some "S") ∅
      = (Return ([Demo.system_says "S"; Demo.user_says "Be terse";
                  Demo.user_says "hi"],
                 Some {| prompt := "hi"; use_as_system_prompt := false |}),
         ∅)
      /\ exists entries,
           [Demo.system_says "S"; Demo.user_says "Be terse";
            Demo.user_says "hi"]
           = {| role := "system"; content := "S" |} :: entries).
Proof.
  pose proof (older_directive_is_ignored
                Demo.parse Demo.fetch_message Demo.decode Demo.PdfReader
                Demo.SYSTEM_TAG Demo.config Demo.bot_user_id
                90 Demo.stHi Demo.cmdTerse ∅
                {| prompt := "hi"; use_as_system_prompt := false |}
                {| prompt := "Be terse"; use_as_system_prompt := true |}
                eq_refl eq_refl eq_refl eq_refl eq_refl eq_refl)
    as (Hbody & _ & Hpass).
  split; [repeat split |]. split; [exact Hbody |].
  split; [reflexivity |].
  exact (proj2 (Hpass 5%nat Demo.cmdHi "S" ∅ _ _ ∅ eq_refl eq_refl eq_refl)).
Defined.

(** The same chain, step by step: when the older message is reached no
    system prompt has been captured and its own command carries the
    directive, yet its prompt is not captured and it gets an entry of its
    own. *)
Lemma older_directive_not_captured :
  Demo.parse (clean_content Demo.cmdTerse)
  = inr {| prompt := "Be terse"; use_as_system_prompt := true |}
  /\ Demo.body Demo.config 90 Demo.st0 Demo.cmdHi ∅
     = (Return (Continue,
                {| token_count := 0;
                   args := Some {| prompt := "hi";
                                   use_as_system_prompt := false |};
                   system_prompt := None;
                   messages := [Demo.user_says "hi"] |}), ∅)
  /\ Demo.body Demo.config 90
       {| token_count := 0;
          args := Some {| prompt := "hi"; use_as_system_prompt := false |};
          system_prompt := None;
          messages := [Demo.user_says "hi"] |}
       Demo.cmdTerse ∅
     = (Return (Continue,
                {| token_count := 2;
                   args := Some {| prompt := "hi";
                                   use_as_system_prompt := false |};
                   system_prompt := None;
                   messages := [Demo.user_says "Be terse";
                                Demo.user_says "hi"] |}), ∅)
  /\ Demo.compile 5 Demo.cmdHi (Some "S") ∅
     = (Return ([Demo.system_says "S"; Demo.user_says "Be terse";
                 Demo.user_says "hi"],
                Some {| prompt := "hi"; use_as_system_prompt := false |}),
        ∅)
  /\ Demo.system_says "S" <> Demo.system_says "Be terse".
Proof.
  split; [reflexivity |]. split; [reflexivity |]. split; [reflexivity |].
  split; [reflexivity |]. discriminate.
Qed.


(** Asked to print the first content, the renderer prints the built-in
    layout. *)
Lemma convert_chat_history_to_prompt_at_first_content :
  Demo.render_template Demo.FIRST_CONTENT
    [{| role := "user"; content := "hi" |}] = inr "hi"
  /\ convert_chat_history_to_prompt Demo.render_template
       [{| role := "user"; content := "hi" |}] Demo.FIRST_CONTENT ∅
     = (Return ("### Instruction:" ++ Str.nl ++ "hi" ++ Str.nl ++ Str.nl
                ++ "### Response:" ++ Str.nl), ∅).
Proof. split; reflexivity. Qed.


(** The oldest message of the thread ends the iteration, twice. *)
Lemma anext_stop_is_stable_witness :
  fst (ReplyChainIterator.__anext__ Demo.fetch_message
         {| ReplyChainIterator.message := Demo.msgA;
            ReplyChainIterator.message_index := 1 |})
  = ReplyChainIterator.StopAsyncIteration
  /\ fst (ReplyChainIterator.__anext__ Demo.fetch_message
            (snd (ReplyChainIterator.__anext__ Demo.fetch_message
                    {| ReplyChainIterator.message := Demo.msgA;
                       ReplyChainIterator.message_index := 1 |})))
     = ReplyChainIterator.StopAsyncIteration.
Proof.
  split; [reflexivity |].
  apply (anext_stop_is_stable Demo.fetch_message). reflexivity.
Defined.

Lemma fetch_thread_id ch i m :
  Demo.fetch_thread ch i = inr m -> id m = i.
Proof.
  unfold Demo.fetch_thread.
  destruct (Z.eqb_spec i 10); [intros [= <-]; now subst |].
  destruct (Z.eqb_spec i 11); [intros [= <-]; now subst |].
  destruct (Z.eqb_spec i 12); [intros [= <-]; now subst |].
  discriminate.
Qed.

Lemma fetch_thread_older ch i m r :
  Demo.fetch_thread ch i = inr m -> reference m = Some r ->
  0 <= message_id r < i.
Proof.
  unfold Demo.fetch_thread.
  destruct (Z.eqb_spec i 10); [intros [= <-]; discriminate |].
  destruct (Z.eqb_spec i 11);
    [intros [= <-] [= <-]; subst; simpl; lia |].
  destruct (Z.eqb_spec i 12);
    [intros [= <-] [= <-]; subst; simpl; lia |].
  discriminate.
Qed.

(** In the thread A, B, C ids decrease along the replies: fourteen steps of
    fuel are enough for the message with id 12. *)
Lemma drain_terminates_witness :
  ReplyChainIterator.drain Demo.fetch_thread 14
    (ReplyChainIterator.init Demo.msgC) <> OutOfFuel.
Proof.
  apply (drain_terminates Demo.fetch_thread Demo.msgC 14).
  - apply fetch_thread_id.
  - apply fetch_thread_older.
  - intros r [= <-]. simpl. lia.
  - simpl. lia.
Defined.

(** The PDF of the small world is readable, and is read. *)
Lemma read_attachment_returns_iff_readable_witness :
  readable Demo.decode Demo.PdfReader Demo.good_pdf = true
  /\ exists s fs',
       read_attachment Demo.decode Demo.PdfReader Demo.good_pdf ∅
       = (Return s, fs').
Proof.
  split; [reflexivity |].
  apply (read_attachment_returns_iff_readable
           Demo.decode Demo.PdfReader Demo.good_pdf ∅).
  reflexivity.
Defined.

(** Reading the PDF removes a file that was in the working directory under
    the same name. *)
Lemma read_attachment_pdf_text_witness :
  kind_of Demo.good_pdf = Pdf
  /\ read Demo.good_pdf = inr (list_byte_of_string "%PDFpage one")
  /\ save Demo.good_pdf = None
  /\ Demo.PdfReader (list_byte_of_string "%PDFpage one")
     = inr (map inr ["page one"])
  /\ read_attachment Demo.decode Demo.PdfReader Demo.good_pdf
       {[ "doc.pdf" := [] ]}
     = (Return (Str.join (map (fun p => Str.nl ++ p) ["page one"])),
        delete (filename Demo.good_pdf) {[ "doc.pdf" := [] ]}).
Proof.
  split; [reflexivity |]. split; [reflexivity |]. split; [reflexivity |].
  split; [reflexivity |].
  apply (read_attachment_pdf_text Demo.decode Demo.PdfReader Demo.good_pdf
           {[ "doc.pdf" := [] ]} (list_byte_of_string "%PDFpage one")
           ["page one"]); reflexivity.
Defined.

(** A file that is not a PDF stays behind. *)
Lemma read_attachment_pdf_failure_leaves_file_witness :
  kind_of Demo.bad_pdf = Pdf
  /\ Demo.PdfReader (list_byte_of_string "garbage") = inl PdfReadError
  /\ read_attachment Demo.decode Demo.PdfReader Demo.bad_pdf ∅
     = (Raise PdfReadError,
        <[filename Demo.bad_pdf := list_byte_of_string "garbage"]> ∅).
Proof.
  split; [reflexivity |]. split; [reflexivity |].
  apply (read_attachment_pdf_failure_leaves_file
           Demo.decode Demo.PdfReader Demo.bad_pdf ∅
           (list_byte_of_string "garbage") PdfReadError);
    try reflexivity.
  left. reflexivity.
Defined.

(** One attachment of five letters adds 67 characters to "see". *)
Lemma get_text_extends_base_text_witness :
  Demo.get_text Demo.msgNote 5 ∅
  = (Return ("see" ++ NOTE_CONTENTS ++ "hello", 23), ∅)
  /\ exists base suffix,
       base_text Demo.parse Demo.config Demo.bot_user_id Demo.msgNote ∅
       = (Return base, ∅)
       /\ "see" ++ NOTE_CONTENTS ++ "hello" = base ++ suffix
       /\ 63 * Z.of_nat (length (attachments Demo.msgNote))
          <= Str.len suffix
       /\ 23 = (Str.len base + Str.len suffix) / EST_CHARS_PER_TOKEN
       /\ (attachments Demo.msgNote <> [] ->
           "see" ++ NOTE_CONTENTS ++ "hello" <> "" /\ 21 <= 23).
Proof.
  split; [reflexivity |].
  apply (get_text_extends_base_text
           Demo.parse Demo.decode Demo.PdfReader Demo.config
           Demo.bot_user_id Demo.msgNote 5 ∅ ∅
           ("see" ++ NOTE_CONTENTS ++ "hello") 23).
  reflexivity.
Defined.


(** The newest command of the chain "Be kind", "Be terse" is returned. *)
Lemma compile_chat_history_returns_newest_command_witness :
  ReplyChainIterator.reply_chain Demo.fetch_message Demo.cmdKind
    [Demo.cmdTerse]
  /\ Demo.compile 5 Demo.cmdKind (Some "S") ∅
     = (Return ([Demo.system_says "Be kind"; Demo.user_says "Be terse"],
                Some {| prompt := "Be kind"; use_as_system_prompt := true |}),
        ∅)
  /\ (is_command Demo.config Demo.cmdKind = true ->
      exists c,
        Demo.parse (clean_content Demo.cmdKind) = inr c
        /\ Some {| prompt := "Be kind"; use_as_system_prompt := true |}
           = Some c)
  /\ (Some {| prompt := "Be kind"; use_as_system_prompt := true |} = None
      \/ Some {| prompt := "Be kind"; use_as_system_prompt := true |}
         = newest_command Demo.parse Demo.config
             [Demo.cmdKind; Demo.cmdTerse]).
Proof.
  assert (Hch : ReplyChainIterator.reply_chain Demo.fetch_message
                  Demo.cmdKind [Demo.cmdTerse]).
  { eapply ReplyChainIterator.chain_fetched; [reflexivity | reflexivity |].
    apply ReplyChainIterator.chain_no_reference. reflexivity. }
  split; [exact Hch |]. split; [reflexivity |].
  exact (compile_chat_history_returns_newest_command
           Demo.parse Demo.fetch_message Demo.decode Demo.PdfReader
           Demo.SYSTEM_TAG Demo.config Demo.bot_user_id
           5 Demo.cmdKind [Demo.cmdTerse] "S" ∅ ∅
           [Demo.system_says "Be kind"; Demo.user_says "Be terse"]
           (Some {| prompt := "Be kind"; use_as_system_prompt := true |})
           Hch eq_refl).
Defined.

(** The texts "A", "B" and "C" and the prompt "S" are within ninety
    tokens. *)
Lemma compile_chat_history_budget_witness :
  exists accepted,
    tail [Demo.system_says "S"; Demo.user_says "A"; Demo.user_says "B";
          Demo.user_says "C"]
    = rev (map (fun p => entry_of Demo.bot_user_id (fst p) (snd p)) accepted)
    /\ (accepted <> [] ->
        Str.len "S" / EST_CHARS_PER_TOKEN + tokens_of accepted
        <= context_length Demo.config - max_new_tokens Demo.config).
Proof.
  exact (compile_chat_history_budget
           Demo.parse Demo.fetch_message Demo.decode Demo.PdfReader
           Demo.SYSTEM_TAG Demo.config Demo.bot_user_id
           5 Demo.msgC (ReplyChainIterator.init Demo.msgC) "S" ∅ ∅
           [Demo.system_says "S"; Demo.user_says "A"; Demo.user_says "B";
            Demo.user_says "C"] None eq_refl).
Defined.

(** With room for two tokens and a default prompt of three, the thread
    compiles to the system entry alone. *)
Lemma compile_chat_history_oversized_default_witness :
  Str.len "123456789" / EST_CHARS_PER_TOKEN
  > context_length Demo.tight - max_new_tokens Demo.tight
  /\ exists sys,
       [Demo.system_says "123456789"]
       = [{| role := "system"; content := sys |}].
Proof.
  split; [reflexivity |].
  apply (compile_chat_history_oversized_default
           Demo.parse Demo.fetch_message Demo.decode Demo.PdfReader
           Demo.SYSTEM_TAG Demo.tight Demo.bot_user_id
           5 Demo.msgC (ReplyChainIterator.init Demo.msgC) "123456789" ∅ ∅
           [Demo.system_says "123456789"] None);
    reflexivity.
Defined.

(** The announcement is passed over at the start of a pass, and accepted
    once a command has been recorded. *)
Lemma system_tag_filters_until_a_command_witness :
  loop_body Demo.parse Demo.fetch_tagged Demo.decode Demo.PdfReader
    Demo.SYSTEM_TAG Demo.config Demo.bot_user_id 90 Demo.st0
    Demo.msgTagged ∅
  = (Return (Continue, Demo.st0), ∅)
  /\ loop_body Demo.parse Demo.fetch_tagged Demo.decode Demo.PdfReader
       Demo.SYSTEM_TAG Demo.config Demo.bot_user_id 90 Demo.stHi
       Demo.msgTagged ∅
     = (Return (Continue,
                accept {| role := "assistant"; content := "bob joined" |}
                       3 Demo.stHi), ∅).
Proof.
  split.
  - apply (proj1 (system_tag_filters_until_a_command
                    Demo.parse Demo.fetch_tagged Demo.decode Demo.PdfReader
                    Demo.SYSTEM_TAG Demo.config Demo.bot_user_id
                    90 Demo.st0 Demo.msgTagged ∅ ∅ "bob joined" 3
                    eq_refl eq_refl eq_refl) Demo.msgTagged);
      reflexivity.
  - apply (proj2 (system_tag_filters_until_a_command
                    Demo.parse Demo.fetch_tagged Demo.decode Demo.PdfReader
                    Demo.SYSTEM_TAG Demo.config Demo.bot_user_id
                    90 Demo.stHi Demo.msgTagged ∅ ∅ "bob joined" 3
                    eq_refl eq_refl eq_refl)
             {| prompt := "hi"; use_as_system_prompt := false |});
      [reflexivity | discriminate | simpl; lia].
Defined.

(** The thread C, B, A is a chain of plain messages. *)
Lemma generate_chat_history_plain_chain_witness :
  ReplyChainIterator.reply_chain Demo.fetch_message Demo.msgC
    [Demo.msgB; Demo.msgA]
  /\ forallb (plain Demo.config Demo.bot_user_id)
             [Demo.msgC; Demo.msgB; Demo.msgA] = true
  /\ Demo.compile 5 Demo.msgC (Some "S") ∅
     = (Return
          ({| role := "system"; content := "S" |}
           :: rev (map (fun m => entry_of Demo.bot_user_id m
                                   (clean_content m))
                       (fit (context_length Demo.config
                             - max_new_tokens Demo.config)
                            (Str.len "S" / EST_CHARS_PER_TOKEN)
                            [Demo.msgC; Demo.msgB; Demo.msgA])),
           None), ∅).
Proof.
  assert (Hch : ReplyChainIterator.reply_chain Demo.fetch_message Demo.msgC
                  [Demo.msgB; Demo.msgA]).
  { eapply ReplyChainIterator.chain_fetched; [reflexivity | reflexivity |].
    eapply ReplyChainIterator.chain_fetched; [reflexivity | reflexivity |].
    apply ReplyChainIterator.chain_no_reference. reflexivity. }
  split; [exact Hch |]. split; [reflexivity |].
  apply (generate_chat_history_plain_chain
           Demo.parse Demo.fetch_message Demo.decode Demo.PdfReader
           Demo.SYSTEM_TAG Demo.config Demo.bot_user_id
           5 Demo.msgC [Demo.msgB; Demo.msgA] "S" ∅ Hch);
    [reflexivity | simpl; lia].
Defined.

(** In the thread A, B, C the compilation from C ends within fourteen
    steps. *)
Lemma generate_chat_history_terminates_witness :
  fst (generate_chat_history_from_chat
         Demo.parse Demo.fetch_thread Demo.decode Demo.PdfReader
         Demo.SYSTEM_TAG Demo.config Demo.bot_user_id
         14 Demo.msgC (Some "S") ∅) <> OutOfFuel.
Proof.
  apply (generate_chat_history_terminates
           Demo.parse Demo.fetch_thread Demo.decode Demo.PdfReader
           Demo.SYSTEM_TAG Demo.config Demo.bot_user_id
           14 Demo.msgC (Some "S") ∅).
  - apply fetch_thread_id.
  - apply fetch_thread_older.
  - intros r [= <-]. simpl. lia.
  - simpl. lia.
Defined.

(** The announcement is not in the channel any more: the pass raises
    [NotFound]. *)
Lemma refetch_failure_surfaces_witness :
  Demo.fetch_message (channel Demo.msgTagged) (id Demo.msgTagged)
  = inl NotFound
  /\ Demo.body Demo.config 90 Demo.st0 Demo.msgTagged ∅
     = (Raise NotFound, ∅)
  /\ forall fuel it it',
       ReplyChainIterator.__anext__ Demo.fetch_message it
       = (ReplyChainIterator.Yield Demo.msgTagged, it') ->
       Demo.pass Demo.config (S fuel) 90 it Demo.st0 ∅
       = (Raise NotFound, ∅).
Proof.
  split; [reflexivity |].
  apply (refetch_failure_surfaces
           Demo.parse Demo.fetch_message Demo.decode Demo.PdfReader
           Demo.SYSTEM_TAG Demo.config Demo.bot_user_id
           90 Demo.st0 Demo.msgTagged ∅ ∅ ("bob joined", 3) NotFound);
    reflexivity.
Defined.

(** "!SYN hi" is a command for the prefix "!syn". *)
Lemma command_prefix_ignores_case_witness :
  clean_content Demo.msgShout = "!SYN" ++ " hi"
  /\ Str.lower "!SYN" = Str.lower (command_start_str Demo.config)
  /\ is_command Demo.config Demo.msgShout = true.
Proof.
  split; [reflexivity |]. split; [reflexivity |].
  apply (command_prefix_ignores_case Demo.config Demo.msgShout "!SYN" " hi");
    reflexivity.
Defined.

End Runs.
